(** * bridgebase: the SQL-subset translator of [adapter.py]

    A shallow embedding of the [DBActor] helpers of [src/adapter.py]
    ([_parse_tokens], [_execute_select_mongo], [_build_projection],
    [_parse_where_clause]), of the two [run_*_select] methods and of the
    [speedtest] orchestrator, followed by the properties of the
    specification that concern them; then the endpoints [health] and
    [inspect] and the record generator and batch loop of
    [src/load_data.py], with further properties of all of these.

    Conventions.
    - Python [str] is [string]; the texts handled are ASCII, so the case
      mapping and the white-space class are Python's on code points below
      128 (a character above 127 is carried unchanged and is no space).
    - Python [int] is [Z].  A Python [float] is represented by the decimal
      number its literal denotes (sign, decimal mantissa, power of ten),
      or by an infinity when that number is beyond the range of binary64;
      the rounding to binary64 is not part of the model.
    - A [dict] with string keys is a [gmap string _].
    - An exception is a value of [exn]; code that can raise lives in
      [Res], and code that also talks to a store lives in [M], a state and
      error monad over the history of driver calls.
    - The libraries the adapter calls are not part of the repository.  The
      tokenizer ([sqlparse]) and the two stores are parameters of the
      model; of the drivers ([pymongo], [psycopg2]) and of the actor
      runtime ([ray]) the model has what the adapter relies on: a cursor
      that records [skip] and [limit] and fetches when enumerated, a
      relational cursor that keeps the last result set, and an actor that
      serves its calls one at a time in the order of submission. *)

From Stdlib Require Import ZArith QArith Qround Ascii String List Lia Bool.
From stdpp Require Import base option gmap strings list.

Local Open Scope Z_scope.

(** ** Python strings *)

Module PyStr.

Definition code (c : ascii) : N := N_of_ascii c.

(** [str.isspace] on one ASCII character: TAB, LF, VT, FF, CR, the four
    separators FS, GS, RS, US, and the blank. *)
Definition is_space (c : ascii) : bool :=
  let n := code c in
  ((9 <=? n) && (n <=? 13) || (28 <=? n) && (n <=? 32))%N.

Definition is_lower (c : ascii) : bool :=
  let n := code c in ((97 <=? n) && (n <=? 122))%N.

Definition upper_char (c : ascii) : ascii :=
  if is_lower c then ascii_of_N (code c - 32) else c.

(** [s.upper()] *)
Fixpoint upper (s : string) : string :=
  match s with
  | EmptyString => EmptyString
  | String c r => String (upper_char c) (upper r)
  end.

(** [s.lstrip(chars)], [s.rstrip(chars)] and [s.strip(chars)], the set of
    characters given as a predicate. *)
Fixpoint lstrip_by (p : ascii -> bool) (s : string) : string :=
  match s with
  | EmptyString => EmptyString
  | String c r => if p c then lstrip_by p r else s
  end.

Fixpoint rstrip_by (p : ascii -> bool) (s : string) : string :=
  match s with
  | EmptyString => EmptyString
  | String c r =>
      match rstrip_by p r with
      | EmptyString => if p c then EmptyString else String c EmptyString
      | r' => String c r'
      end
  end.

Definition strip_by (p : ascii -> bool) (s : string) : string :=
  rstrip_by p (lstrip_by p s).

(** [s.strip()] *)
Definition strip (s : string) : string := strip_by is_space s.

(** [s.strip(c)] for a one-character string [c] *)
Definition strip_char (c : ascii) (s : string) : string :=
  strip_by (Ascii.eqb c) s.

(** [s.replace(c, "")] for a one-character string [c] *)
Fixpoint remove_char (c : ascii) (s : string) : string :=
  match s with
  | EmptyString => EmptyString
  | String d r =>
      if Ascii.eqb c d then remove_char c r else String d (remove_char c r)
  end.

(** [c in s] for a one-character string [c] *)
Fixpoint contains_char (c : ascii) (s : string) : bool :=
  match s with
  | EmptyString => false
  | String d r => Ascii.eqb c d || contains_char c r
  end.

Fixpoint rev_acc (acc s : string) : string :=
  match s with
  | EmptyString => acc
  | String c r => rev_acc (String c acc) r
  end.

(** [s.split(sep)] for a non-empty [sep]: a left-to-right scan for
    non-overlapping occurrences.  [skip] counts the characters of a
    separator just matched that are still to be passed over, [cur] is the
    current piece, reversed. *)
Fixpoint split_from (sep : string) (skip : nat) (cur s : string)
  : list string :=
  match s with
  | EmptyString => [rev_acc EmptyString cur]
  | String c r =>
      match skip with
      | S k => split_from sep k cur r
      | O =>
          if String.prefix sep s
          then rev_acc EmptyString cur
                 :: split_from sep (Nat.pred (String.length sep)) EmptyString r
          else split_from sep O (String c cur) r
      end
  end.

Definition split (sep s : string) : list string :=
  split_from sep O EmptyString s.

(** [s.split()]: the maximal runs of non-space characters. *)
Fixpoint words_from (cur s : string) : list string :=
  match s with
  | EmptyString =>
      match cur with
      | EmptyString => []
      | _ => [rev_acc EmptyString cur]
      end
  | String c r =>
      if is_space c
      then match cur with
           | EmptyString => words_from EmptyString r
           | _ => rev_acc EmptyString cur :: words_from EmptyString r
           end
      else words_from (String c cur) r
  end.

Definition words (s : string) : list string := words_from EmptyString s.

(** [sep.join(l)] *)
Fixpoint join (sep : string) (l : list string) : string :=
  match l with
  | [] => EmptyString
  | [x] => x
  | x :: r => String.append x (String.append sep (join sep r))
  end.

End PyStr.

(** ** Exceptions and the error monad *)

Inductive exn : Type :=
| ValueError (msg : string)
| IndexError (msg : string)
| StoreError (msg : string).

Inductive Res (A : Type) : Type :=
| Ok (a : A)
| Raise (e : exn).

Arguments Ok {A} a.
Arguments Raise {A} e.

Definition res_bind {A B : Type} (m : Res A) (k : A -> Res B) : Res B :=
  match m with
  | Ok a => k a
  | Raise e => Raise e
  end.

Notation "'let?' x ':=' m 'in' k" := (res_bind m (fun x => k))
  (at level 10, x name, m at level 100, k at level 200).

(** [try: body except (IndexError, ValueError): handler] *)
Definition is_index_or_value_error (e : exn) : bool :=
  match e with
  | ValueError _ | IndexError _ => true
  | StoreError _ => false
  end.

Definition is_value_error (e : exn) : bool :=
  match e with
  | ValueError _ => true
  | _ => false
  end.

Definition try_except {A : Type} (body : Res A) (caught : exn -> bool)
  (handler : Res A) : Res A :=
  match body with
  | Ok a => Ok a
  | Raise e => if caught e then handler else Raise e
  end.

(** [l[i]] for an index [i >= 0] *)
Definition list_index {A : Type} (l : list A) (i : nat) : Res A :=
  match nth_error l i with
  | Some x => Ok x
  | None => Raise (IndexError "list index out of range")
  end.

(** ** Python numbers read from text *)

Inductive PyFloat : Type :=
| FDec (neg : bool) (mant : N) (exp10 : Z)
| FInf (neg : bool)
| FNan.

Module PyNum.
Import PyStr.

Definition is_digit (c : ascii) : bool :=
  let n := code c in ((48 <=? n) && (n <=? 57))%N.

Definition digit_val (c : ascii) : N := (code c - 48)%N.

Definition is_digit_or_us (c : ascii) : bool :=
  is_digit c || Ascii.eqb c "_".

(** digits with single underscores between them: the value read so far,
    the number of digits read, and whether the last character was a
    digit. *)
Fixpoint digitpart (acc : N) (n : nat) (after_digit : bool) (s : string)
  : option (N * nat) :=
  match s with
  | EmptyString => if after_digit then Some (acc, n) else None
  | String c r =>
      if is_digit c then digitpart (10 * acc + digit_val c)%N (S n) true r
      else if Ascii.eqb c "_" && after_digit then digitpart acc n false r
      else None
  end.

(** The white space [int] and [float] skip around an ASCII text: TAB, LF,
    VT, FF, CR and the blank (not the four separators [str.strip] also
    removes). *)
Definition is_num_space (c : ascii) : bool :=
  let n := code c in ((9 <=? n) && (n <=? 13) || (n =? 32))%N.

Definition split_sign (s : string) : bool * string :=
  match s with
  | String "-" r => (true, r)
  | String "+" r => (false, r)
  | _ => (false, s)
  end.

(** [int(s)]: white space around, a sign, decimal digits with single
    underscores between them; a text of more than 4300 digits is refused
    (the interpreter's default bound). *)
Definition py_int (s : string) : Res Z :=
  let (neg, body) := split_sign (strip_by is_num_space s) in
  match digitpart 0 0 false body with
  | Some (v, n) =>
      if (4300 <? n)%nat
      then Raise (ValueError
                    "Exceeds the limit (4300 digits) for integer string conversion")
      else Ok (if neg then - Z.of_N v else Z.of_N v)
  | None => Raise (ValueError "invalid literal for int() with base 10")
  end.

Fixpoint span (p : ascii -> bool) (s : string) : string * string :=
  match s with
  | EmptyString => (EmptyString, EmptyString)
  | String c r =>
      if p c then let (a, b) := span p r in (String c a, b)
      else (EmptyString, s)
  end.

(** a digit part that may be missing *)
Definition opt_digitpart (s : string) : option (N * nat) :=
  match s with
  | EmptyString => Some (0%N, O)
  | _ => digitpart 0 0 false s
  end.

(** the exponent suffix: nothing, or [e] or [E], a sign and digits *)
Definition exponent (s : string) : option Z :=
  match s with
  | EmptyString => Some 0
  | String c r =>
      if Ascii.eqb c "e" || Ascii.eqb c "E" then
        let (neg, body) := split_sign r in
        match digitpart 0 0 false body with
        | Some (v, _) => Some (if neg then - Z.of_N v else Z.of_N v)
        | None => None
        end
      else None
  end.

(** mantissa and power of ten of an unsigned decimal literal *)
Definition float_number (s : string) : option (N * Z) :=
  let (ip, r1) := span is_digit_or_us s in
  let (fp, r2) :=
    match r1 with
    | String "." r => span is_digit_or_us r
    | _ => (EmptyString, r1)
    end in
  match ip, fp with
  | EmptyString, EmptyString => None
  | _, _ =>
      match opt_digitpart ip, opt_digitpart fp, exponent r2 with
      | Some (iv, _), Some (fv, nf), Some e =>
          Some ((iv * 10 ^ N.of_nat nf + fv)%N, e - Z.of_nat nf)
      | _, _, _ => None
      end
  end.

(** [m * 10^e] is beyond the range of binary64: at least
    [2^1024 - 2^970], the least number that rounds to infinity. *)
Definition overflows (m : N) (e : Z) : bool :=
  let bound := 2 ^ 1024 - 2 ^ 970 in
  if 0 <=? e then bound <=? Z.of_N m * 10 ^ e
  else bound * 10 ^ (- e) <=? Z.of_N m.

(** [float(s)] *)
Definition py_float (s : string) : Res PyFloat :=
  let (neg, body) := split_sign (strip_by is_num_space s) in
  let u := upper body in
  if String.eqb u "INF" || String.eqb u "INFINITY" then Ok (FInf neg)
  else if String.eqb u "NAN" then Ok FNan
  else match float_number body with
       | Some (m, e) => Ok (if overflows m e then FInf neg else FDec neg m e)
       | None => Raise (ValueError "could not convert string to float")
       end.

(** The number a finite float stands for: the mantissa times the power
    of ten, with the sign. *)
Definition float_value (f : PyFloat) : option Q :=
  match f with
  | FDec neg m e =>
      Some (Qmult (inject_Z (if neg then - Z.of_N m else Z.of_N m))
              (Qpower (inject_Z 10) e))
  | FInf _ | FNan => None
  end.

End PyNum.

(** ** Tokens and translated specifications *)

(** A token of the tokenizer, as far as the adapter reads it: its text
    [t.value] and the flag [t.is_whitespace].  A token object is always
    true in a condition ([if not token] only tests for [None]). *)
Record Token : Type := mkToken { value : string; is_whitespace : bool }.

(** A token that is not white space. *)
Definition tok (s : string) : Token := mkToken s false.

(** The value of a WHERE condition after the numeric cast. *)
Inductive Scalar : Type :=
| VInt (z : Z)
| VFloat (f : PyFloat)
| VStr (s : string).

(** An entry of the filter document: the scalar itself for [=], or the
    one-key dict [{op: v}] with [op] one of ["$gt"], ["$lt"]. *)
Inductive FilterVal : Type :=
| FScalar (v : Scalar)
| FOp (op : string) (v : Scalar).

Abbreviation FilterDoc := (gmap string FilterVal).
Abbreviation Projection := (gmap string Z).

Definition squote : ascii := ascii_of_N 39.
Definition dquote : ascii := ascii_of_N 34.

(** *** [DBActor._build_projection] *)

Definition _build_projection (fields_token : option Token) : Projection :=
  match fields_token with
  | None => {[ "_id" := 0 ]}
  | Some ft =>
      if String.eqb (PyStr.strip (value ft)) "*" then {[ "_id" := 0 ]}
      else
        let raw_cols :=
          PyStr.remove_char ")" (PyStr.remove_char "(" (value ft)) in
        let parts := map PyStr.strip (PyStr.split "," raw_cols) in
        let parts :=
          filter (fun p => negb (String.eqb (PyStr.upper p) "SELECT")) parts in
        let proj := fold_left (fun d col => <[ col := 1 ]> d) parts ∅ in
        <[ "_id" := 0 ]> proj
  end.

(** *** [DBActor._parse_where_clause] *)

(** Lines 166-178: the value with its quotes stripped, the numeric cast
    under [try ... except ValueError: pass], and the choice of
    [final_val]. *)
Definition strip_quotes (val : string) : string :=
  PyStr.strip_char dquote (PyStr.strip_char squote val).

Definition cast_value (val : string) : Res Scalar :=
  let? cast_val :=
    try_except
      (if PyStr.contains_char "." val
       then let? f := PyNum.py_float val in Ok (Some (VFloat f))
       else let? n := PyNum.py_int val in Ok (Some (VInt n)))
      is_value_error
      (Ok None) in
  Ok (match cast_val with
      | Some v => v
      | None => VStr val
      end).

(** The body of the loop over the conditions. *)
Definition where_condition (filter_doc : FilterDoc) (cond : string)
  : Res FilterDoc :=
  match PyStr.words cond with
  | field :: op :: ((_ :: _) as rest) =>
      let val := strip_quotes (PyStr.join " " rest) in
      let? final_val := cast_value val in
      if String.eqb op "=" then Ok (<[ field := FScalar final_val ]> filter_doc)
      else if String.eqb op ">" then
        Ok (<[ field := FOp "$gt" final_val ]> filter_doc)
      else if String.eqb op "<" then
        Ok (<[ field := FOp "$lt" final_val ]> filter_doc)
      else Ok filter_doc
  | _ => Ok filter_doc
  end.

Fixpoint where_loop (filter_doc : FilterDoc) (conditions : list string)
  : Res FilterDoc :=
  match conditions with
  | [] => Ok filter_doc
  | cond :: rest =>
      let? d := where_condition filter_doc cond in where_loop d rest
  end.

Definition _parse_where_clause (tokens : list Token) : Res FilterDoc :=
  let where_str := PyStr.join " " (map value tokens) in
  let conditions := map PyStr.strip (PyStr.split "AND" where_str) in
  where_loop ∅ conditions.

(** *** The keyword scan of [DBActor._execute_select_mongo] (lines 94-117) *)

(** The five local variables the scan assigns. *)
Record Clauses : Type := mkClauses {
  select_idx : option nat;
  from_idx : option nat;
  where_idx : option nat;
  limit_val : option Z;
  offset_val : option Z
}.

Definition no_clauses : Clauses := mkClauses None None None None None.

Definition set_select (i : nat) (c : Clauses) : Clauses :=
  mkClauses (Some i) (from_idx c) (where_idx c) (limit_val c) (offset_val c).
Definition set_from (i : nat) (c : Clauses) : Clauses :=
  mkClauses (select_idx c) (Some i) (where_idx c) (limit_val c) (offset_val c).
Definition set_where (i : nat) (c : Clauses) : Clauses :=
  mkClauses (select_idx c) (from_idx c) (Some i) (limit_val c) (offset_val c).
Definition set_limit (n : Z) (c : Clauses) : Clauses :=
  mkClauses (select_idx c) (from_idx c) (where_idx c) (Some n) (offset_val c).
Definition set_offset (n : Z) (c : Clauses) : Clauses :=
  mkClauses (select_idx c) (from_idx c) (where_idx c) (limit_val c) (Some n).

(** [t.value.upper() == kw] *)
Definition is_kw (kw : string) (t : Token) : bool :=
  String.eqb (PyStr.upper (value t)) kw.

(** [int(tokens[i+1].value)] *)
Definition int_after (tokens : list Token) (i : nat) : Res Z :=
  let? nxt := list_index tokens (i + 1) in PyNum.py_int (value nxt).

(** The body of [for i, t in enumerate(tokens)]. *)
Definition scan_step (tokens : list Token) (i : nat) (t : Token) (c : Clauses)
  : Res Clauses :=
  if is_kw "SELECT" t then Ok (set_select i c)
  else if is_kw "FROM" t then Ok (set_from i c)
  else if is_kw "WHERE" t then Ok (set_where i c)
  else if is_kw "LIMIT" t then
    try_except
      (let? n := int_after tokens i in Ok (set_limit n c))
      is_index_or_value_error (Ok c)
  else if is_kw "OFFSET" t then
    try_except
      (let? n := int_after tokens i in Ok (set_offset n c))
      is_index_or_value_error (Ok c)
  else Ok c.

(** The loop from position [i] on, [rest] being [tokens[i:]]. *)
Fixpoint scan_from (tokens rest : list Token) (i : nat) (c : Clauses)
  : Res Clauses :=
  match rest with
  | [] => Ok c
  | t :: rest' =>
      let? c' := scan_step tokens i t c in scan_from tokens rest' (S i) c'
  end.

Definition scan (tokens : list Token) : Res Clauses :=
  scan_from tokens tokens O no_clauses.

(** *** The translation of [DBActor._execute_select_mongo] (lines 119-135) *)

(** What the method hands to the driver. *)
Record Query : Type := mkQuery {
  collection_name : string;
  projection : Projection;
  filter_doc : FilterDoc;
  q_offset : option Z;
  q_limit : option Z
}.

(** Lines 119-135, from the variables the scan has set. *)
Definition build_query (tokens : list Token) (c : Clauses) : Res Query :=
  match from_idx c with
  | None => Raise (ValueError "No 'FROM' clause found")
  | Some fi =>
      let? fields_token :=
        match select_idx c with
        | Some si => let? t := list_index tokens (si + 1) in Ok (Some t)
        | None => Ok None
        end in
      let table_token :=
        if (fi + 1 <? length tokens)%nat then nth_error tokens (fi + 1)
        else None in
      match table_token with
      | None => Raise (ValueError "No collection specified")
      | Some tbl =>
          let collection_name := PyStr.strip (value tbl) in
          let projection := _build_projection fields_token in
          let? filter_doc :=
            match where_idx c with
            | Some wi => _parse_where_clause (skipn (wi + 1) tokens)
            | None => Ok ∅
            end in
          Ok (mkQuery collection_name projection filter_doc
                (offset_val c) (limit_val c))
      end
  end.

Definition translate (tokens : list Token) : Res Query :=
  let? c := scan tokens in build_query tokens c.

(** ** The actor: driver calls, clock, and the two [run_*_select] methods *)

(** A call that reaches a store driver. *)
Inductive Call : Type :=
| MongoCollection (name : string)
| MongoFind (name : string) (f : FilterDoc) (p : Projection)
| CursorSkip (n : Z)
| CursorLimit (n : Z)
| CursorList
| PgExecute (sql : string)
| PgFetchall.

Section Actor.

(** Records of the document store, rows of the relational store, and
    readings of [time.perf_counter] with their difference. *)
Variables Doc Row Time : Type.
Variable time_sub : Time -> Time -> Time.

(** The tokenizer: the statements of a text, each as the list of its
    top-level tokens ([sqlparse.parse(sql)] and [statement.tokens]). *)
Variable sqlparse_parse : string -> list (list Token).

(** The stores behind the drivers.
    - [mongo_collection name]: what [self.mongo_db[name]] does (it may
      refuse the name);
    - [mongo_docs name f p]: all the records a [find(f, p)] on that
      collection enumerates, in cursor order, or a store failure;
    - [pg_execute sql]: the failure of [cursor.execute(sql)], or [None]
      when the statement has no result set ([cursor.description] is
      false in a condition), or its rows. *)
Variable mongo_collection : string -> Res unit.
Variable mongo_docs : string -> FilterDoc -> Projection -> Res (list Doc).
Variable pg_execute : string -> Res (option (list Row)).

(** The [n]-th reading of the clock. *)
Variable clock : nat -> Time.

(** The state the actor's methods run in: the driver calls made so far
    (in the order they were made), the number of clock readings taken,
    and the result set the relational cursor holds. *)
Record World : Type := mkWorld {
  calls : list Call;
  clock_reads : nat;
  pg_rows : option (list Row)
}.

Definition M (A : Type) : Type := World -> Res A * World.

Definition ret {A : Type} (a : A) : M A := fun w => (Ok a, w).
Definition raise {A : Type} (e : exn) : M A := fun w => (Raise e, w).
Definition bind {A B : Type} (m : M A) (k : A -> M B) : M B :=
  fun w =>
    match m w with
    | (Ok a, w') => k a w'
    | (Raise e, w') => (Raise e, w')
    end.
Definition lift {A : Type} (r : Res A) : M A := fun w => (r, w).

Notation "'do' x '<-' m ';' k" := (bind m (fun x => k))
  (at level 10, x name, m at level 100, k at level 200).

Definition log (c : Call) : M unit :=
  fun w => (Ok tt, mkWorld (calls w ++ [c]) (clock_reads w) (pg_rows w)).

(** [time.perf_counter()] *)
Definition perf_counter : M Time :=
  fun w =>
    (Ok (clock (clock_reads w)),
     mkWorld (calls w) (S (clock_reads w)) (pg_rows w)).

(** *** The driver of the document store *)

(** A cursor holds the query and the two options [skip] and [limit] sets;
    nothing is fetched before it is enumerated. *)
Record Cursor : Type := mkCursor {
  cur_name : string;
  cur_filter : FilterDoc;
  cur_projection : Projection;
  cur_skip : Z;
  cur_limit : Z
}.

(** [self.mongo_db[name].find(f, p)] *)
Definition find (name : string) (f : FilterDoc) (p : Projection) : M Cursor :=
  do _ <- log (MongoCollection name);
  do _ <- lift (mongo_collection name);
  do _ <- log (MongoFind name f p);
  ret (mkCursor name f p 0 0).

(** [cursor.skip(n)]: a negative [n] is refused. *)
Definition skip (n : Z) (c : Cursor) : M Cursor :=
  do _ <- log (CursorSkip n);
  if n <? 0 then raise (ValueError "skip must be >= 0")
  else ret (mkCursor (cur_name c) (cur_filter c) (cur_projection c)
              n (cur_limit c)).

(** [cursor.limit(n)] *)
Definition limit (n : Z) (c : Cursor) : M Cursor :=
  do _ <- log (CursorLimit n);
  ret (mkCursor (cur_name c) (cur_filter c) (cur_projection c)
         (cur_skip c) n).

(** What the store returns for a cursor: the matching records without
    the first [cur_skip], cut to [|cur_limit|] records unless the limit
    is 0, which means no limit. *)
Definition window (c : Cursor) (docs : list Doc) : list Doc :=
  let rest := skipn (Z.to_nat (cur_skip c)) docs in
  if cur_limit c =? 0 then rest
  else firstn (Z.to_nat (Z.abs (cur_limit c))) rest.

(** [list(cursor)] *)
Definition cursor_list (c : Cursor) : M (list Doc) :=
  do _ <- log CursorList;
  do docs <- lift (mongo_docs (cur_name c) (cur_filter c) (cur_projection c));
  ret (window c docs).

(** *** [DBActor._execute_select_mongo], lines 137-143 *)

Definition execute (q : Query) : M (list Doc) :=
  do cursor <- find (collection_name q) (filter_doc q) (projection q);
  do cursor <-
    match q_offset q with
    | Some m => skip m cursor
    | None => ret cursor
    end;
  do cursor <-
    match q_limit q with
    | Some n => limit n cursor
    | None => ret cursor
    end;
  cursor_list cursor.

(** *** [DBActor._execute_select_mongo] *)

Definition _execute_select_mongo (tokens : list Token) : M (list Doc) :=
  do q <- lift (translate tokens);
  execute q.

(** *** [DBActor._parse_tokens] *)

Definition _parse_tokens (sql_query : string) : Res (list Token) :=
  match sqlparse_parse sql_query with
  | [] => Raise (ValueError "Unable to parse the SQL query")
  | statement :: _ =>
      match filter (fun t => negb (is_whitespace t)) statement with
      | [] => Raise (ValueError "Invalid SQL query (no tokens).")
      | tokens => Ok tokens
      end
  end.

(** *** [DBActor.run_mongo_select] *)

Definition run_mongo_select (sql_query : string) : M (list Doc * Time) :=
  do tokens <- lift (_parse_tokens sql_query);
  do start <- perf_counter;
  do results <- _execute_select_mongo tokens;
  do stop <- perf_counter;
  ret (results, time_sub stop start).

(** *** [DBActor.run_postgres_select] *)

Definition pg_cursor_execute (sql : string) : M unit :=
  do _ <- log (PgExecute sql);
  do r <- lift (pg_execute sql);
  fun w => (Ok tt, mkWorld (calls w) (clock_reads w) r).

Definition pg_cursor_description : M bool :=
  fun w => (Ok (match pg_rows w with Some _ => true | None => false end), w).

Definition pg_cursor_fetchall : M (list Row) :=
  do _ <- log PgFetchall;
  fun w =>
    match pg_rows w with
    | Some rows => (Ok rows, w)
    | None => (Raise (StoreError "no results to fetch"), w)
    end.

Definition run_postgres_select (sql_query : string) : M (list Row * Time) :=
  do start <- perf_counter;
  do _ <- pg_cursor_execute sql_query;
  do has_rows <- pg_cursor_description;
  do rows <- (if has_rows then pg_cursor_fetchall else ret []);
  do stop <- perf_counter;
  ret (rows, time_sub stop start).

(** *** The [speedtest] endpoint *)

Record BenchmarkResult : Type := mkBenchmark {
  total_parallel_time : Time;
  mongo_in_the_middle_time : Time;
  mongo_in_the_middle_count : nat;
  native_postgres_time : Time;
  native_postgres_count : nat
}.

(** The body of a response: the 400 answer or the report. *)
Inductive Response : Type :=
| BadRequest (error : string)
| Report (r : BenchmarkResult).

(** [actor.method.remote(args)]: the call is handed to the actor, which
    serves its calls one at a time in the order they were submitted; the
    future holds the outcome of the call, a raised exception included,
    and submitting never raises. *)
Definition remote {A : Type} (task : M A) : M (Res A) :=
  fun w => let (r, w') := task w in (Ok r, w').

(** [ray.get(future)]: the result of the call, or its exception raised
    again. *)
Definition ray_get {A : Type} (future : Res A) : M A := lift future.

Definition speedtest (sql_query : string) : M Response :=
  if String.eqb sql_query "" then ret (BadRequest "No SQL query provided")
  else
    do start_all <- perf_counter;
    do mongo_future <- remote (run_mongo_select sql_query);
    do pg_future <- remote (run_postgres_select sql_query);
    do mongo <- ray_get mongo_future;
    do pg <- ray_get pg_future;
    do stop_all <- perf_counter;
    ret (Report (mkBenchmark (time_sub stop_all start_all)
                   (snd mongo) (length (fst mongo))
                   (snd pg) (length (fst pg)))).

(** The records a query yields once the store has answered. *)
Definition fetched (q : Query) (skipped limit : Z) : Res (list Doc) :=
  let? docs := mongo_docs (collection_name q) (filter_doc q) (projection q) in
  Ok (window
        (mkCursor (collection_name q) (filter_doc q) (projection q)
           skipped limit)
        docs).

(** The state in which the actor starts on the first of the two calls:
    the endpoint has read the clock once. *)
Definition dispatched (w : World) : World :=
  mkWorld (calls w) (S (clock_reads w)) (pg_rows w).

End Actor.

Arguments mkWorld {Row} calls clock_reads pg_rows.
Arguments calls {Row} w.
Arguments clock_reads {Row} w.
Arguments pg_rows {Row} w.
Arguments dispatched {Row} w.

(** ** The Flask endpoints [health] and [inspect] *)

Section Endpoints.

(** The global connections of the module: the same drivers as in the
    actor, on a state of their own.  [mongo_ping] is the outcome of
    [mongo_client_global.admin.command('ping')], [list_collection_names]
    the outcome of [mongo_db_global.list_collection_names()]. *)
Variables Doc Row : Type.
Variable mongo_ping : Res unit.
Variable list_collection_names : Res (list string).
Variable mongo_collection : string -> Res unit.
Variable mongo_docs : string -> FilterDoc -> Projection -> Res (list Doc).
Variable pg_execute : string -> Res (option (list Row)).

Notation "'do' x '<-' m ';' k" := (bind Row m (fun x => k))
  (at level 10, x name, m at level 100, k at level 200).

(** [try: body except Exception as e: handler] *)
Definition try_except_Exception {A : Type} (body : M Row A)
  (handler : exn -> M Row A) : M Row A :=
  fun w =>
    match body w with
    | (Ok a, w') => (Ok a, w')
    | (Raise e, w') => handler e w'
    end.

(** [str(e)] *)
Definition str_exn (e : exn) : string :=
  match e with
  | ValueError msg | IndexError msg | StoreError msg => msg
  end.

(** [health]: the JSON object of the answer, its keys and values strings,
    and the status code.  (The call of [logger.error] in the handler is
    left out.) *)
Definition health : M Row (gmap string string * Z) :=
  try_except_Exception
    (do _ <- lift Row mongo_ping;
     do _ <- pg_cursor_execute Row pg_execute "SELECT 1;";
     ret Row ({[ "status" := "ok" ]}, 200))
    (fun e =>
       ret Row (<[ "message" := str_exn e ]> {[ "status" := "error" ]}, 500)).

(** The body of the answer of [inspect]. *)
Inductive InspectBody : Type :=
| InspectData (collections : list string) (data : gmap string (list Doc))
| InspectError (error : string).

(** The loop [for coll in collections] of [inspect]. *)
Fixpoint inspect_loop (collections : list string)
  (data : gmap string (list Doc)) : M Row (gmap string (list Doc)) :=
  match collections with
  | [] => ret Row data
  | coll :: rest =>
      do cursor <- find Row mongo_collection coll ∅ {[ "_id" := 0 ]};
      do cursor <- limit Row 50 cursor;
      do docs <- cursor_list Doc Row mongo_docs cursor;
      inspect_loop rest (<[ coll := docs ]> data)
  end.

Definition inspect : M Row (InspectBody * Z) :=
  try_except_Exception
    (do collections <- lift Row list_collection_names;
     do data <- inspect_loop collections ∅;
     ret Row (InspectData collections data, 200))
    (fun e => ret Row (InspectError (str_exn e), 500)).

End Endpoints.

Arguments InspectData {Doc} collections data.
Arguments InspectError {Doc} error.

(** ** [load_data.py] *)

Definition NUM_RECORDS : Z := 500000.
Definition BATCH_SIZE : Z := 5000.

(** A generated record [{"name": name, "age": age}]. *)
Record UserDoc : Type := mkUserDoc { doc_name : string; doc_age : Z }.

Section LoadData.

(** The state of the random generator and the two functions of [random]
    the script calls: [random.choices(population, k=k)] and
    [random.randint(a, b)]. *)
Variable Rng : Type.
Variable random_choices : list ascii -> nat -> Rng -> list ascii * Rng.
Variable random_randint : Z -> Z -> Rng -> Z * Rng.

(** [string.ascii_lowercase] *)
Definition ascii_lowercase : list ascii :=
  list_ascii_of_string "abcdefghijklmnopqrstuvwxyz".

(** [random_name(length)] *)
Definition random_name (length : nat) (g : Rng) : string * Rng :=
  let (cs, g') := random_choices ascii_lowercase length g in
  (string_of_list_ascii cs, g').

(** The loop [for _ in range(num_records)] of [generate_data], with [n]
    turns to go. *)
Fixpoint generate_loop (n : nat) (data_list : list UserDoc) (g : Rng)
  : list UserDoc * Rng :=
  match n with
  | O => (data_list, g)
  | S k =>
      let (name, g1) := random_name 7 g in
      let (age, g2) := random_randint 18 90 g1 in
      generate_loop k (data_list ++ [mkUserDoc name age]) g2
  end.

(** [generate_data(num_records)]; a negative [num_records] gives an empty
    range. *)
Definition generate_data (num_records : Z) (g : Rng) : list UserDoc * Rng :=
  generate_loop (Z.to_nat num_records) [] g.

End LoadData.

(** [math.ceil(NUM_RECORDS / BATCH_SIZE)]; the quotient of the two
    constants is exact in binary64. *)
Definition total_batches : Z :=
  Qceiling (Qmake NUM_RECORDS (Z.to_pos BATCH_SIZE)).

(** The loop [for batch_num in range(total_batches)] with [n] turns to go:
    the lists of pairs handed to [cursor.executemany], in order. *)
Fixpoint batch_loop (batch_size : nat) (mongo_data : list UserDoc)
  (start_index n : nat) : list (list (string * Z)) :=
  match n with
  | O => []
  | S k =>
      let batch_data := firstn batch_size (skipn start_index mongo_data) in
      let pg_data := map (fun doc => (doc_name doc, doc_age doc)) batch_data in
      pg_data :: batch_loop batch_size mongo_data (start_index + batch_size) k
  end.

(** Lines 76-87 of the script. *)
Definition postgres_batches (mongo_data : list UserDoc)
  : list (list (string * Z)) :=
  batch_loop (Z.to_nat BATCH_SIZE) mongo_data O (Z.to_nat total_batches).

(** ** Notions used to state the properties *)

(** The index of the last token of [l] that satisfies [p], and (the
    specification's reading) of the first, the head of [l] having index
    [i]. *)
Fixpoint last_index_from (p : Token -> bool) (i : nat) (l : list Token)
  : option nat :=
  match l with
  | [] => None
  | t :: r =>
      match last_index_from p (S i) r with
      | Some j => Some j
      | None => if p t then Some i else None
      end
  end.

Fixpoint first_index_from (p : Token -> bool) (i : nat) (l : list Token)
  : option nat :=
  match l with
  | [] => None
  | t :: r => if p t then Some i else first_index_from p (S i) r
  end.

Definition last_index (p : Token -> bool) (l : list Token) : option nat :=
  last_index_from p O l.

Definition first_index (p : Token -> bool) (l : list Token) : option nat :=
  first_index_from p O l.

(** [int(tokens[i+1].value)] when it succeeds. *)
Definition int_after_opt (tokens : list Token) (i : nat) : option Z :=
  match int_after tokens i with
  | Ok n => Some n
  | Raise _ => None
  end.

(** The integer read after the last occurrence of [kw] in [rest] that is
    followed in [tokens] by a token [int] accepts, the head of [rest]
    having index [i]. *)
Fixpoint last_int_from (kw : string) (tokens : list Token) (i : nat)
  (rest : list Token) : option Z :=
  match rest with
  | [] => None
  | t :: r =>
      match last_int_from kw tokens (S i) r with
      | Some n => Some n
      | None => if is_kw kw t then int_after_opt tokens i else None
      end
  end.

Definition last_int (kw : string) (tokens : list Token) : option Z :=
  last_int_from kw tokens O tokens.

(** [a] unless it is [None], then [b]. *)
Definition or_else {A : Type} (a b : option A) : option A :=
  match a with
  | Some _ => a
  | None => b
  end.

(** The spec's names for the errors of tokenization and clause location,
    and the fourth error the code raises there. *)
Definition EmptyQuery_unparsed : exn :=
  ValueError "Unable to parse the SQL query".
Definition EmptyQuery_no_tokens : exn :=
  ValueError "Invalid SQL query (no tokens).".
Definition MissingFromClause : exn := ValueError "No 'FROM' clause found".
Definition NoCollection : exn := ValueError "No collection specified".

(** [t] is one of the five words the scan looks for. *)
Definition is_keyword (t : Token) : bool :=
  is_kw "SELECT" t || is_kw "FROM" t || is_kw "WHERE" t
  || is_kw "LIMIT" t || is_kw "OFFSET" t.

(** The SELECT keyword the scan has kept is the last token. *)
Definition select_is_last (tokens : list Token) : bool :=
  match last_index (is_kw "SELECT") tokens with
  | Some si => (length tokens <=? si + 1)%nat
  | None => false
  end.

(** The scalar the cast of lines 168-178 leaves in [final_val]. *)
Definition cast_scalar (val : string) : Scalar :=
  if PyStr.contains_char "." val
  then match PyNum.py_float val with
       | Ok f => VFloat f
       | Raise _ => VStr val
       end
  else match PyNum.py_int val with
       | Ok n => VInt n
       | Raise _ => VStr val
       end.

(** What the chain of lines 179-184 stores for an operator, if it stores
    anything. *)
Definition entry_of (op : string) (v : Scalar) : option FilterVal :=
  if String.eqb op "=" then Some (FScalar v)
  else if String.eqb op ">" then Some (FOp "$gt" v)
  else if String.eqb op "<" then Some (FOp "$lt" v)
  else None.

(** The field a condition assigns and the entry it assigns to it, if it
    assigns one. *)
Definition condition_entry (cond : string) : option (string * FilterVal) :=
  match PyStr.words cond with
  | field :: op :: ((_ :: _) as rest) =>
      match entry_of op (cast_scalar (strip_quotes (PyStr.join " " rest))) with
      | Some e => Some (field, e)
      | None => None
      end
  | _ => None
  end.

(** [cond] assigns nothing to [field]. *)
Definition silent_on (field : string) (cond : string) : Prop :=
  forall e, condition_entry cond <> Some (field, e).

(** The conditions [_parse_where_clause] loops over. *)
Definition conditions_of (tokens : list Token) : list string :=
  map PyStr.strip (PyStr.split "AND" (PyStr.join " " (map value tokens))).

(** The column names [_build_projection] reads in a field list. *)
Definition projection_parts (ft : Token) : list string :=
  filter (fun p => negb (String.eqb (PyStr.upper p) "SELECT"))
    (map PyStr.strip
       (PyStr.split ","
          (PyStr.remove_char ")" (PyStr.remove_char "(" (value ft))))).

(** The token after the last SELECT keyword, if there is a SELECT. *)
Definition fields_token_of (tokens : list Token) : option Token :=
  match last_index (is_kw "SELECT") tokens with
  | Some si => nth_error tokens (si + 1)
  | None => None
  end.

(** The filter the tokens after the last WHERE keyword give. *)
Definition where_filter_of (tokens : list Token) : Res FilterDoc :=
  match last_index (is_kw "WHERE") tokens with
  | Some wi => _parse_where_clause (skipn (wi + 1) tokens)
  | None => Ok ∅
  end.

(** A call of the document-store driver. *)
Definition is_mongo_call (c : Call) : bool :=
  match c with
  | MongoCollection _ | MongoFind _ _ _ | CursorSkip _ | CursorLimit _
  | CursorList => true
  | PgExecute _ | PgFetchall => false
  end.

(** A record as the script generates them: a name of seven lower-case
    letters and an age from 18 to 90. *)
Definition well_formed (d : UserDoc) : Prop :=
  String.length (doc_name d) = 7%nat
  /\ Forall (fun c => PyStr.is_lower c = true)
       (list_ascii_of_string (doc_name d))
  /\ 18 <= doc_age d <= 90.

(** * Properties *)

(** ** The model at work *)

Example upper_ex : PyStr.upper "Select" = "SELECT".
Proof. reflexivity. Qed.

Example split_and_ex :
  PyStr.split "AND" "age > 30 AND name = 'x'" = ["age > 30 "; " name = 'x'"].
Proof. reflexivity. Qed.

Example split_comma_ex : PyStr.split "," "a,,b," = ["a"; ""; "b"; ""].
Proof. reflexivity. Qed.

Example words_ex : PyStr.words "  age  >   30 " = ["age"; ">"; "30"].
Proof. reflexivity. Qed.

Example strip_ex : PyStr.strip_char "'" "''x'" = "x".
Proof. reflexivity. Qed.

Example py_int_ex1 : PyNum.py_int " 1_000 " = Ok 1000.
Proof. reflexivity. Qed.
Example py_int_ex2 : PyNum.py_int "-5" = Ok (-5).
Proof. reflexivity. Qed.
Example py_int_ex3 :
  PyNum.py_int "3.14" = Raise (ValueError "invalid literal for int() with base 10").
Proof. reflexivity. Qed.
Example py_float_ex1 : PyNum.py_float "3.14" = Ok (FDec false 314 (-2)).
Proof. reflexivity. Qed.
Example py_float_ex2 : PyNum.py_float "1.5e3" = Ok (FDec false 15 2).
Proof. reflexivity. Qed.
Example py_float_ex3 :
  PyNum.py_float "1.2.3" = Raise (ValueError "could not convert string to float").
Proof. reflexivity. Qed.
Example py_float_ex4 :
  PyNum.py_float "." = Raise (ValueError "could not convert string to float").
Proof. reflexivity. Qed.
Example py_float_ex5 : PyNum.py_float "-.5" = Ok (FDec true 5 (-1)).
Proof. reflexivity. Qed.

(** [int] does not skip the separator FS that [str.strip] removes, and a
    literal beyond the range of binary64 is an infinity. *)
Example py_int_ex4 :
  PyStr.strip (String (ascii_of_N 28) "5") = "5"
  /\ PyNum.py_int (String (ascii_of_N 28) "5")
     = Raise (ValueError "invalid literal for int() with base 10").
Proof. split; reflexivity. Qed.
Example py_float_ex6 :
  PyNum.py_float "1.5e400" = Ok (FInf false)
  /\ PyNum.py_float "-2.e308" = Ok (FInf true)
  /\ PyNum.py_float "1.7e308" = Ok (FDec false 17 307).
Proof. repeat split; vm_compute; reflexivity. Qed.

Example build_projection_ex :
  _build_projection (Some (tok "a,b"))
  = <[ "_id" := 0 ]> (<[ "b" := 1 ]> (<[ "a" := 1 ]> ∅)).
Proof. reflexivity. Qed.

Example parse_where_ex :
  _parse_where_clause (map tok ["age"; ">"; "30"; "AND"; "name"; "="; "'x'"])
  = Ok (<[ "name" := FScalar (VStr "x") ]>
          (<[ "age" := FOp "$gt" (VInt 30) ]> ∅)).
Proof. reflexivity. Qed.

Example translate_ex :
  translate (map tok ["SELECT"; "a,b"; "FROM"; "t"; "WHERE"; "age"; ">"; "30";
                      "AND"; "name"; "="; "'x'"; "LIMIT"; "10"; "OFFSET"; "5"])
  = Ok (mkQuery "t"
          (<[ "_id" := 0 ]> (<[ "b" := 1 ]> (<[ "a" := 1 ]> ∅)))
          (<[ "name" := FScalar (VStr "x' LIMIT 10 OFFSET 5") ]>
             (<[ "age" := FOp "$gt" (VInt 30) ]> ∅))
          (Some 5) (Some 10)).
Proof. vm_compute. reflexivity. Qed.

(** When the tokenizer hands the whole WHERE clause over as one token, no
    token reads WHERE: the scan leaves [where_idx] unset and the filter is
    empty. *)
Example grouped_where_is_not_seen :
  translate (map tok ["SELECT"; "a,b"; "FROM"; "t";
                      "WHERE age > 30 AND name = 'x'"])
  = Ok (mkQuery "t"
          (<[ "_id" := 0 ]> (<[ "b" := 1 ]> (<[ "a" := 1 ]> ∅)))
          ∅ None None).
Proof. vm_compute. reflexivity. Qed.

(** A SELECT keyword in last position, after a FROM clause: line 123 reads
    past the end of the list. *)
Example select_last_raises_index_error :
  translate (map tok ["FROM"; "t"; "SELECT"])
  = Raise (IndexError "list index out of range").
Proof. reflexivity. Qed.

(** ** What the keyword scan records *)

Lemma int_after_caught tokens i e :
  int_after tokens i = Raise e -> is_index_or_value_error e = true.
Proof.
  unfold int_after, list_index, PyNum.py_int.
  destruct (nth_error tokens (i + 1)) as [t|]; simpl.
  - destruct (PyNum.split_sign _) as [neg body].
    destruct (PyNum.digitpart _ _ _ _) as [[v n]|];
      [destruct (4300 <? n)%nat|]; intros H; inversion H; reflexivity.
  - intros H; inversion H. reflexivity.
Qed.

(** The [try] blocks of the scan absorb whatever their body raises. *)
Lemma try_int_after tokens i (set : Z -> Clauses -> Clauses) c :
  try_except (let? n := int_after tokens i in Ok (set n c))
    is_index_or_value_error (Ok c)
  = Ok (match int_after_opt tokens i with
        | Some n => set n c
        | None => c
        end).
Proof.
  unfold int_after_opt.
  destruct (int_after tokens i) as [n|e] eqn:E; simpl; [reflexivity|].
  rewrite (int_after_caught _ _ _ E). reflexivity.
Qed.

Lemma is_kw_excl k1 k2 t :
  is_kw k1 t = true -> k1 <> k2 -> is_kw k2 t = false.
Proof.
  unfold is_kw. intros H1 Hne.
  apply String.eqb_eq in H1. apply String.eqb_neq. congruence.
Qed.

(** One turn of the loop, field by field. *)
Lemma scan_step_fields tokens i t c :
  exists c',
    scan_step tokens i t c = Ok c'
    /\ select_idx c' = (if is_kw "SELECT" t then Some i else select_idx c)
    /\ from_idx c' = (if is_kw "FROM" t then Some i else from_idx c)
    /\ where_idx c' = (if is_kw "WHERE" t then Some i else where_idx c)
    /\ limit_val c'
       = or_else (if is_kw "LIMIT" t then int_after_opt tokens i else None)
           (limit_val c)
    /\ offset_val c'
       = or_else (if is_kw "OFFSET" t then int_after_opt tokens i else None)
           (offset_val c).
Proof.
  unfold scan_step.
  destruct (is_kw "SELECT" t) eqn:HS.
  { rewrite !(is_kw_excl "SELECT" _ t HS) by discriminate.
    eexists; repeat split; reflexivity. }
  destruct (is_kw "FROM" t) eqn:HF.
  { rewrite !(is_kw_excl "FROM" _ t HF) by discriminate.
    eexists; repeat split; reflexivity. }
  destruct (is_kw "WHERE" t) eqn:HW.
  { rewrite !(is_kw_excl "WHERE" _ t HW) by discriminate.
    eexists; repeat split; reflexivity. }
  destruct (is_kw "LIMIT" t) eqn:HL.
  { rewrite !(is_kw_excl "LIMIT" _ t HL) by discriminate.
    rewrite try_int_after.
    eexists; split; [reflexivity|].
    destruct (int_after_opt tokens i); repeat split; reflexivity. }
  destruct (is_kw "OFFSET" t) eqn:HO.
  { rewrite try_int_after.
    eexists; split; [reflexivity|].
    destruct (int_after_opt tokens i); repeat split; reflexivity. }
  eexists; repeat split; reflexivity.
Qed.

(** The whole loop from position [i] on. *)
Lemma scan_from_fields tokens rest : forall i c,
  exists c',
    scan_from tokens rest i c = Ok c'
    /\ select_idx c'
       = or_else (last_index_from (is_kw "SELECT") i rest) (select_idx c)
    /\ from_idx c'
       = or_else (last_index_from (is_kw "FROM") i rest) (from_idx c)
    /\ where_idx c'
       = or_else (last_index_from (is_kw "WHERE") i rest) (where_idx c)
    /\ limit_val c'
       = or_else (last_int_from "LIMIT" tokens i rest) (limit_val c)
    /\ offset_val c'
       = or_else (last_int_from "OFFSET" tokens i rest) (offset_val c).
Proof.
  induction rest as [|t rest IH]; intros i c.
  - exists c. repeat split; reflexivity.
  - destruct (scan_step_fields tokens i t c)
      as (c1 & E1 & S1 & F1 & W1 & L1 & O1).
    destruct (IH (S i) c1) as (c2 & E2 & S2 & F2 & W2 & L2 & O2).
    exists c2. simpl. rewrite E1. simpl. rewrite E2.
    rewrite S2, F2, W2, L2, O2, S1, F1, W1, L1, O1.
    split; [reflexivity|].
    repeat split.
    + destruct (last_index_from (is_kw "SELECT") (S i) rest); [reflexivity|].
      destruct (is_kw "SELECT" t); reflexivity.
    + destruct (last_index_from (is_kw "FROM") (S i) rest); [reflexivity|].
      destruct (is_kw "FROM" t); reflexivity.
    + destruct (last_index_from (is_kw "WHERE") (S i) rest); [reflexivity|].
      destruct (is_kw "WHERE" t); reflexivity.
    + destruct (last_int_from "LIMIT" tokens (S i) rest); reflexivity.
    + destruct (last_int_from "OFFSET" tokens (S i) rest); reflexivity.
Qed.

Lemma or_else_None {A : Type} (a : option A) : or_else a None = a.
Proof. destruct a; reflexivity. Qed.

(** The scan never raises, and this is what it leaves in the five
    variables. *)
Lemma scan_fields tokens :
  exists c,
    scan tokens = Ok c
    /\ select_idx c = last_index (is_kw "SELECT") tokens
    /\ from_idx c = last_index (is_kw "FROM") tokens
    /\ where_idx c = last_index (is_kw "WHERE") tokens
    /\ limit_val c = last_int "LIMIT" tokens
    /\ offset_val c = last_int "OFFSET" tokens.
Proof.
  destruct (scan_from_fields tokens tokens O no_clauses)
    as (c & E & S & F & W & L & O).
  exists c. simpl in *. rewrite !or_else_None in *.
  repeat split; assumption.
Qed.

Lemma scan_eq tokens :
  scan tokens
  = Ok (mkClauses (last_index (is_kw "SELECT") tokens)
          (last_index (is_kw "FROM") tokens)
          (last_index (is_kw "WHERE") tokens)
          (last_int "LIMIT" tokens)
          (last_int "OFFSET" tokens)).
Proof.
  destruct (scan_fields tokens) as ([s f w l o] & E & S & F & W & L & O).
  simpl in *. subst. exact E.
Qed.

Lemma last_index_from_none p l : forall i,
  Forall (fun t => p t = false) l -> last_index_from p i l = None.
Proof.
  induction l as [|t l IH]; intros i H; [reflexivity|].
  inversion H as [|? ? Ht Hl]; subst. simpl.
  rewrite (IH (S i) Hl), Ht. reflexivity.
Qed.

Lemma last_int_from_none kw tokens l : forall i,
  Forall (fun t => is_kw kw t = false) l -> last_int_from kw tokens i l = None.
Proof.
  induction l as [|t l IH]; intros i H; [reflexivity|].
  inversion H as [|? ? Ht Hl]; subst. simpl.
  rewrite (IH (S i) Hl), Ht. reflexivity.
Qed.

Lemma last_index_from_app p l1 l2 : forall i,
  last_index_from p i (l1 ++ l2)
  = or_else (last_index_from p (i + length l1) l2) (last_index_from p i l1).
Proof.
  induction l1 as [|t l1 IH]; intros i; simpl.
  - rewrite Nat.add_0_r, or_else_None. reflexivity.
  - rewrite IH. replace (S i + length l1)%nat with (i + S (length l1))%nat by lia.
    destruct (last_index_from p (i + S (length l1)) l2); reflexivity.
Qed.

(** An index the scan records is the index of a token. *)
Lemma last_index_from_bound p l : forall i j,
  last_index_from p i l = Some j -> (i <= j < i + length l)%nat.
Proof.
  induction l as [|t l IH]; intros i j H; simpl in H; [discriminate|].
  destruct (last_index_from p (S i) l) as [k|] eqn:E.
  - inversion H; subst. apply IH in E. simpl. lia.
  - destruct (p t); inversion H; subst. simpl. lia.
Qed.

Lemma is_keyword_false t :
  is_keyword t = false ->
  is_kw "SELECT" t = false /\ is_kw "FROM" t = false
  /\ is_kw "WHERE" t = false /\ is_kw "LIMIT" t = false
  /\ is_kw "OFFSET" t = false.
Proof.
  unfold is_keyword. intros H.
  repeat (apply orb_false_elim in H; destruct H as [H ?]).
  repeat split; assumption.
Qed.

Lemma Forall_is_keyword l kw :
  Forall (fun t => is_keyword t = false) l ->
  In kw ["SELECT"; "FROM"; "WHERE"; "LIMIT"; "OFFSET"] ->
  Forall (fun t => is_kw kw t = false) l.
Proof.
  intros H Hkw. eapply Forall_impl; [exact H|].
  intros t Ht. simpl in Ht.
  destruct (is_keyword_false t Ht) as (S & F & W & L & O).
  simpl in Hkw.
  destruct Hkw as [<-|[<-|[<-|[<-|[<-|[]]]]]]; assumption.
Qed.

(** ** C2: the clause locator *)

(** C2, as stated, fails: the scan does not keep the index of a keyword's
    first occurrence.  In [SELECT * FROM t FROM u] the variable [from_idx]
    ends as 4, the first [FROM] is at 2. *)
Lemma C2_first_occurrence_counterexample :
  ~ (forall tokens c,
        scan tokens = Ok c ->
        from_idx c = first_index (is_kw "FROM") tokens).
Proof.
  intros H.
  specialize (H (map tok ["SELECT"; "*"; "FROM"; "t"; "FROM"; "u"]) _ eq_refl).
  vm_compute in H. discriminate H.
Qed.

(** C2, amended: for every token sequence the single left-to-right,
    case-insensitive scan ends without raising, and it leaves in
    [select_idx], [from_idx] and [where_idx] the index of the LAST
    occurrence of SELECT, FROM and WHERE (every occurrence overwrites the
    one before; no occurrence is told apart from a real keyword), and in
    [limit_val] and [offset_val] no index but the integer read from the
    token after the last LIMIT, respectively OFFSET, that is followed by a
    token [int] accepts. *)
Theorem C2_scan_records_last_occurrence :
  forall tokens,
  exists c,
    scan tokens = Ok c
    /\ select_idx c = last_index (is_kw "SELECT") tokens
    /\ from_idx c = last_index (is_kw "FROM") tokens
    /\ where_idx c = last_index (is_kw "WHERE") tokens
    /\ limit_val c = last_int "LIMIT" tokens
    /\ offset_val c = last_int "OFFSET" tokens.
Proof.
  intros tokens. rewrite scan_eq. eexists. repeat split; reflexivity.
Qed.

(** ** C4 and C10: the two errors of clause location *)

Section ClauseErrors.

Variables Doc Row Time : Type.
Variable time_sub : Time -> Time -> Time.
Variable sqlparse_parse : string -> list (list Token).
Variable mongo_collection : string -> Res unit.
Variable mongo_docs : string -> FilterDoc -> Projection -> Res (list Doc).
Variable clock : nat -> Time.

Local Abbreviation exec :=
  (_execute_select_mongo Doc Row mongo_collection mongo_docs).
Local Abbreviation run_mongo :=
  (run_mongo_select Doc Row Time time_sub sqlparse_parse mongo_collection
     mongo_docs clock).
Local Abbreviation parse := (_parse_tokens sqlparse_parse).

Lemma exec_raise tokens e (w : World Row) :
  translate tokens = Raise e -> exec tokens w = (Raise e, w).
Proof.
  intros H. unfold _execute_select_mongo, bind, lift.
  rewrite H. reflexivity.
Qed.

Lemma run_mongo_raise sql tokens e (w : World Row) :
  parse sql = Ok tokens ->
  translate tokens = Raise e ->
  run_mongo sql w
  = (Raise e, mkWorld (calls w) (S (clock_reads w)) (pg_rows w)).
Proof.
  intros Hp Ht. unfold run_mongo_select, bind, lift, perf_counter.
  rewrite Hp. rewrite (exec_raise _ _ _ Ht). reflexivity.
Qed.

(** C4: for every token sequence with no FROM keyword (no token whose
    upper-cased text is FROM), the translation fails with the
    MissingFromClause error, [_execute_select_mongo] raises it with the
    state of the actor unchanged, so no driver call has been made, and
    [run_mongo_select] on a text with these tokens raises it having made
    no driver call either. *)
Theorem C4_missing_from_clause :
  forall tokens,
    Forall (fun t => is_kw "FROM" t = false) tokens ->
    translate tokens = Raise MissingFromClause
    /\ (forall w, exec tokens w = (Raise MissingFromClause, w))
    /\ (forall sql w,
           parse sql = Ok tokens ->
           fst (run_mongo sql w) = Raise MissingFromClause
           /\ calls (snd (run_mongo sql w)) = calls w).
Proof.
  intros tokens H.
  assert (Ht : translate tokens = Raise MissingFromClause).
  { unfold translate. rewrite scan_eq. simpl.
    unfold build_query, last_index. simpl.
    rewrite (last_index_from_none _ _ O H). reflexivity. }
  split; [exact Ht|]. split.
  - intros w. apply exec_raise, Ht.
  - intros sql w Hp. rewrite (run_mongo_raise _ _ _ _ Hp Ht). split; reflexivity.
Qed.

Lemma last_index_snoc_true p pre t :
  p t = true -> last_index p (pre ++ [t]) = Some (length pre).
Proof.
  intros H. unfold last_index. rewrite last_index_from_app. simpl.
  rewrite H. reflexivity.
Qed.

Lemma last_index_snoc_false p pre t :
  p t = false -> last_index p (pre ++ [t]) = last_index p pre.
Proof.
  intros H. unfold last_index. rewrite last_index_from_app. simpl.
  rewrite H. reflexivity.
Qed.

Lemma translate_from_last pre t :
  is_kw "FROM" t = true -> translate (pre ++ [t]) = Raise NoCollection.
Proof.
  intros HF.
  unfold translate. rewrite scan_eq. simpl. unfold build_query. simpl.
  rewrite (last_index_snoc_true _ pre t HF).
  rewrite (last_index_snoc_false (is_kw "SELECT") pre t)
    by (apply (is_kw_excl "FROM"); [exact HF|discriminate]).
  assert (Hlen : length (pre ++ [t]) = S (length pre))
    by (rewrite length_app; simpl; lia).
  assert (Hfields : exists ft,
    match last_index (is_kw "SELECT") pre with
    | Some si => let? x := list_index (pre ++ [t]) (si + 1) in Ok (Some x)
    | None => Ok None
    end = Ok ft).
  { destruct (last_index (is_kw "SELECT") pre) as [si|] eqn:E;
      [|eexists; reflexivity].
    apply last_index_from_bound in E.
    unfold list_index.
    destruct (nth_error (pre ++ [t]) (si + 1)) as [x|] eqn:N.
    - eexists; reflexivity.
    - apply nth_error_None in N. simpl in *. lia. }
  destruct Hfields as [ft ->]. simpl.
  replace (length pre + 1 <? length (pre ++ [t]))%nat with false.
  - reflexivity.
  - symmetry. apply Nat.ltb_ge. lia.
Qed.

(** C10: for every token sequence whose last token is a FROM keyword,
    the translation fails with the error [No collection specified],
    which is none of the errors the specification names for tokenization
    and clause location, and [_execute_select_mongo] raises it with the
    state of the actor unchanged: no driver call has been made. *)
Theorem C10_from_is_last_token :
  forall pre t,
    is_kw "FROM" t = true ->
    translate (pre ++ [t]) = Raise NoCollection
    /\ (forall w, exec (pre ++ [t]) w = (Raise NoCollection, w))
    /\ NoCollection <> MissingFromClause
    /\ NoCollection <> EmptyQuery_unparsed
    /\ NoCollection <> EmptyQuery_no_tokens
    /\ (forall msg, NoCollection <> StoreError msg).
Proof.
  intros pre t HF.
  pose proof (translate_from_last pre t HF) as Ht.
  split; [exact Ht|]. split; [intros w; apply exec_raise, Ht|].
  repeat split; discriminate.
Qed.

End ClauseErrors.

(** C4 at work: [SELECT a WHERE age > 30] has no FROM. *)
Lemma C4_missing_from_clause_witness :
  translate (map tok ["SELECT"; "a"; "WHERE"; "age"; ">"; "30"])
  = Raise MissingFromClause.
Proof.
  refine (proj1 (C4_missing_from_clause nat nat nat (fun a _ => a)
                   (fun _ => []) (fun _ => Ok tt) (fun _ _ _ => Ok [])
                   (fun n => n) _ _)).
  repeat constructor.
Defined.

(** C10 at work: [SELECT a FROM] ends with FROM. *)
Lemma C10_from_is_last_token_witness :
  translate (map tok ["SELECT"; "a"] ++ [tok "from"]) = Raise NoCollection.
Proof.
  refine (proj1 (C10_from_is_last_token nat nat (fun _ => Ok tt)
                   (fun _ _ _ => Ok []) _ _ _)).
  reflexivity.
Defined.

(** ** C1 and C3: two statement shapes *)

Lemma last_index_app_none p pre span :
  Forall (fun t => p t = false) span ->
  last_index p (pre ++ span) = last_index p pre.
Proof.
  intros H. unfold last_index. rewrite last_index_from_app.
  rewrite (last_index_from_none _ _ _ H). reflexivity.
Qed.

Lemma last_int_none kw tokens :
  Forall (fun t => is_kw kw t = false) tokens -> last_int kw tokens = None.
Proof. intros H. apply last_int_from_none, H. Qed.

(** Tokens none of which is a keyword leave the variables of the scan as
    the tokens before them set them, provided no LIMIT or OFFSET comes
    before. *)
Lemma scan_app_no_keyword pre span :
  Forall (fun t => is_keyword t = false) span ->
  Forall (fun t => is_kw "LIMIT" t = false) pre ->
  Forall (fun t => is_kw "OFFSET" t = false) pre ->
  scan (pre ++ span)
  = Ok (mkClauses (last_index (is_kw "SELECT") pre)
          (last_index (is_kw "FROM") pre)
          (last_index (is_kw "WHERE") pre) None None).
Proof.
  intros Hs HL HO. rewrite scan_eq.
  rewrite !last_index_app_none
    by (apply Forall_is_keyword; [exact Hs|simpl; tauto]).
  rewrite !last_int_none; [reflexivity| |].
  - apply Forall_app; split; [exact HO|].
    apply Forall_is_keyword; [exact Hs|simpl; tauto].
  - apply Forall_app; split; [exact HL|].
    apply Forall_is_keyword; [exact Hs|simpl; tauto].
Qed.

(** What the translator does when WHERE is a token of its own: for every
    token sequence of the form [SELECT] [a,b] [FROM] [t] [WHERE] followed
    by tokens, none of them a keyword, whose texts joined by single blanks
    read [age > 30 AND name = 'x'] ([t] any text that is no keyword), the
    translation succeeds with the filter
    [{"age": {"$gt": 30}, "name": "x"}] and the projection
    [{"a": 1, "b": 1, "_id": 0}]. *)
Lemma where_token_of_its_own :
  forall t span,
    is_keyword (tok t) = false ->
    Forall (fun x => is_keyword x = false) span ->
    PyStr.join " " (map value span) = "age > 30 AND name = 'x'" ->
    translate ([tok "SELECT"; tok "a,b"; tok "FROM"; tok t; tok "WHERE"] ++ span)
    = Ok (mkQuery (PyStr.strip t)
            (<[ "_id" := 0 ]> (<[ "b" := 1 ]> (<[ "a" := 1 ]> ∅)))
            (<[ "name" := FScalar (VStr "x") ]>
               (<[ "age" := FOp "$gt" (VInt 30) ]> ∅))
            None None).
Proof.
  intros t span Ht Hs Hj.
  destruct (is_keyword_false _ Ht) as (HtS & HtF & HtW & HtL & HtO).
  set (pre := [tok "SELECT"; tok "a,b"; tok "FROM"; tok t; tok "WHERE"]).
  assert (ES : last_index (is_kw "SELECT") pre = Some 0%nat)
    by (unfold last_index, pre; cbn [last_index_from]; rewrite HtS; reflexivity).
  assert (EF : last_index (is_kw "FROM") pre = Some 2%nat)
    by (unfold last_index, pre; cbn [last_index_from]; rewrite HtF; reflexivity).
  assert (EW : last_index (is_kw "WHERE") pre = Some 4%nat)
    by (unfold last_index, pre; cbn [last_index_from]; rewrite HtW; reflexivity).
  unfold translate.
  rewrite scan_app_no_keyword;
    [|exact Hs|repeat constructor; exact HtL|repeat constructor; exact HtO].
  rewrite ES, EF, EW. unfold build_query, pre.
  lazy beta iota zeta delta
    [from_idx select_idx where_idx limit_val offset_val app Nat.add
     list_index nth_error res_bind length Nat.ltb Nat.leb skipn value tok].
  unfold _parse_where_clause. rewrite Hj.
  generalize (PyStr.strip t). intros name. vm_compute. reflexivity.
Qed.

Lemma where_token_of_its_own_witness :
  translate (map tok ["SELECT"; "a,b"; "FROM"; "t"; "WHERE";
                      "age"; ">"; "30"; "AND"; "name"; "="; "'x'"])
  = Ok (mkQuery "t"
          (<[ "_id" := 0 ]> (<[ "b" := 1 ]> (<[ "a" := 1 ]> ∅)))
          (<[ "name" := FScalar (VStr "x") ]>
             (<[ "age" := FOp "$gt" (VInt 30) ]> ∅))
          None None).
Proof.
  apply (where_token_of_its_own "t"
           (map tok ["age"; ">"; "30"; "AND"; "name"; "="; "'x'"])).
  - reflexivity.
  - repeat constructor.
  - reflexivity.
Defined.

(** C1, the claim against the code: the tokenizer hands the WHERE clause
    of [SELECT a,b FROM t WHERE age > 30 AND name = 'x'] over as one
    token, whose text is the whole clause.  No token then reads WHERE:
    the scan leaves [where_idx] unset, lines 133-135 are not run, and the
    translation succeeds with the projection [{"a": 1, "b": 1, "_id": 0}]
    but with the empty filter, not with
    [{"age": {"$gt": 30}, "name": "x"}]; so does [_parse_tokens] followed
    by the translation on the statement with its white-space tokens.  In
    general, a token sequence in which no token reads WHERE is translated
    with the empty filter. *)
Theorem C1_grouped_where_clause_is_lost :
  translate (map tok ["SELECT"; "a,b"; "FROM"; "t";
                      "WHERE age > 30 AND name = 'x'"])
  = Ok (mkQuery "t"
          (<[ "_id" := 0 ]> (<[ "b" := 1 ]> (<[ "a" := 1 ]> ∅)))
          ∅ None None)
  /\ (∅ : FilterDoc)
     <> <[ "name" := FScalar (VStr "x") ]>
          (<[ "age" := FOp "$gt" (VInt 30) ]> ∅)
  /\ (forall sqlparse_parse sql later,
         sqlparse_parse sql
         = [tok "SELECT"; mkToken " " true; tok "a,b"; mkToken " " true;
            tok "FROM"; mkToken " " true; tok "t"; mkToken " " true;
            tok "WHERE age > 30 AND name = 'x'"] :: later ->
         (let? tokens := _parse_tokens sqlparse_parse sql in translate tokens)
         = Ok (mkQuery "t"
                 (<[ "_id" := 0 ]> (<[ "b" := 1 ]> (<[ "a" := 1 ]> ∅)))
                 ∅ None None))
  /\ (forall tokens q,
         Forall (fun t => is_kw "WHERE" t = false) tokens ->
         translate tokens = Ok q ->
         filter_doc q = ∅).
Proof.
  split; [vm_compute; reflexivity|]. split; [|split].
  - intros H.
    apply (f_equal (fun d : FilterDoc => d !! "age")) in H.
    vm_compute in H. discriminate H.
  - intros parse sql later Hp. unfold _parse_tokens. rewrite Hp.
    vm_compute. reflexivity.
  - intros tokens q Hw. unfold translate. rewrite scan_eq. simpl.
    unfold build_query. simpl.
    unfold last_index at 3. rewrite (last_index_from_none _ _ O Hw).
    destruct (last_index (is_kw "FROM") tokens) as [fi|]; [|discriminate].
    destruct (match last_index (is_kw "SELECT") tokens with
              | Some si => _ | None => _ end) as [ft|e]; [|discriminate].
    simpl.
    destruct (if (fi + 1 <? length tokens)%nat then _ else _) as [tbl|];
      [|discriminate].
    simpl. intros H; inversion H; reflexivity.
Qed.

(** C3: for every token sequence [SELECT] [*] [FROM] [t], and for every
    token sequence [FROM] [t] with no SELECT and so no field-list token
    ([t] any text that is no keyword), the translation succeeds with the
    projection [{"_id": 0}] and the empty filter; and the projection
    builder returns [{"_id": 0}] when it is given no token and whenever
    the trimmed text of its token is [*]. *)
Theorem C3_select_star :
  forall t,
    is_keyword (tok t) = false ->
    translate [tok "SELECT"; tok "*"; tok "FROM"; tok t]
    = Ok (mkQuery (PyStr.strip t) {[ "_id" := 0 ]} ∅ None None)
    /\ translate [tok "FROM"; tok t]
       = Ok (mkQuery (PyStr.strip t) {[ "_id" := 0 ]} ∅ None None)
    /\ _build_projection None = {[ "_id" := 0 ]}
    /\ (forall ft,
           PyStr.strip (value ft) = "*" ->
           _build_projection (Some ft) = {[ "_id" := 0 ]}).
Proof.
  intros t Ht.
  destruct (is_keyword_false _ Ht) as (HtS & HtF & HtW & HtL & HtO).
  assert (translate_pre : forall pre si,
    last_index (is_kw "SELECT") pre = si ->
    last_index (is_kw "FROM") pre = Some (length pre - 2)%nat ->
    last_index (is_kw "WHERE") pre = None ->
    Forall (fun t => is_kw "LIMIT" t = false) pre ->
    Forall (fun t => is_kw "OFFSET" t = false) pre ->
    translate pre
    = build_query pre
        (mkClauses si (Some (length pre - 2)%nat) None None None)).
  { intros pre si ES EF EW HL HO. unfold translate.
    rewrite <- (app_nil_r pre) at 1.
    rewrite scan_app_no_keyword by (constructor || assumption).
    rewrite ES, EF, EW. reflexivity. }
  split; [|split; [|split]].
  - rewrite (translate_pre _ (Some 0%nat)).
    + reflexivity.
    + unfold last_index; cbn [last_index_from]; rewrite HtS; reflexivity.
    + unfold last_index; cbn [last_index_from]; rewrite HtF; reflexivity.
    + unfold last_index; cbn [last_index_from]; rewrite HtW; reflexivity.
    + repeat constructor; exact HtL.
    + repeat constructor; exact HtO.
  - rewrite (translate_pre _ None).
    + reflexivity.
    + unfold last_index; cbn [last_index_from]; rewrite HtS; reflexivity.
    + unfold last_index; cbn [last_index_from]; rewrite HtF; reflexivity.
    + unfold last_index; cbn [last_index_from]; rewrite HtW; reflexivity.
    + repeat constructor; exact HtL.
    + repeat constructor; exact HtO.
  - reflexivity.
  - intros ft Hft. unfold _build_projection. rewrite Hft. reflexivity.
Qed.

Lemma C3_select_star_witness :
  translate (map tok ["SELECT"; "*"; "FROM"; "users"])
  = Ok (mkQuery "users" {[ "_id" := 0 ]} ∅ None None).
Proof.
  refine (proj1 (C3_select_star "users" _)). reflexivity.
Defined.

(** ** C5, C6 and C8: the filter translator and the projection builder *)

Lemma py_int_raises s e :
  PyNum.py_int s = Raise e -> is_value_error e = true.
Proof.
  unfold PyNum.py_int.
  destruct (PyNum.split_sign _) as [neg body].
  destruct (PyNum.digitpart _ _ _ _) as [[v n]|];
    [destruct (4300 <? n)%nat|]; intros H; inversion H; reflexivity.
Qed.

Lemma py_float_raises s e :
  PyNum.py_float s = Raise e -> is_value_error e = true.
Proof.
  unfold PyNum.py_float.
  destruct (PyNum.split_sign _) as [neg body].
  destruct (_ || _); [discriminate|].
  destruct (String.eqb _ _); [discriminate|].
  destruct (PyNum.float_number body) as [[m x]|]; intros H; inversion H.
  reflexivity.
Qed.

(** The cast of lines 168-178 never raises: this is its result. *)
Lemma cast_value_eq val :
  cast_value val
  = Ok (if PyStr.contains_char "." val
        then match PyNum.py_float val with
             | Ok f => VFloat f
             | Raise _ => VStr val
             end
        else match PyNum.py_int val with
             | Ok n => VInt n
             | Raise _ => VStr val
             end).
Proof.
  unfold cast_value.
  destruct (PyStr.contains_char "." val).
  - destruct (PyNum.py_float val) as [f|e] eqn:E; simpl; [reflexivity|].
    rewrite (py_float_raises _ _ E). reflexivity.
  - destruct (PyNum.py_int val) as [n|e] eqn:E; simpl; [reflexivity|].
    rewrite (py_int_raises _ _ E). reflexivity.
Qed.

Lemma where_condition_ok d cond : exists d', where_condition d cond = Ok d'.
Proof.
  unfold where_condition.
  destruct (PyStr.words cond) as [|field [|op [|v rest]]];
    try (eexists; reflexivity).
  rewrite cast_value_eq. simpl.
  destruct (String.eqb op "="); [eexists; reflexivity|].
  destruct (String.eqb op ">"); [eexists; reflexivity|].
  destruct (String.eqb op "<"); eexists; reflexivity.
Qed.

Lemma where_loop_ok conds : forall d, exists d', where_loop d conds = Ok d'.
Proof.
  induction conds as [|cond conds IH]; intros d; simpl.
  - eexists; reflexivity.
  - destruct (where_condition_ok d cond) as [d1 ->]. simpl. apply IH.
Qed.

Lemma parse_where_clause_ok tokens :
  exists d, _parse_where_clause tokens = Ok d.
Proof. unfold _parse_where_clause. apply where_loop_ok. Qed.

(** C5: for every condition whose second word, the operator, is none of
    [=], [>], [<], the filter translator raises nothing and leaves the
    filter document as it was: in the loop over the conditions the
    condition counts for nothing. *)
Theorem C5_unsupported_operator_dropped :
  forall (d : FilterDoc) cond field op rest conds,
    PyStr.words cond = field :: op :: rest ->
    op <> "=" -> op <> ">" -> op <> "<" ->
    where_condition d cond = Ok d
    /\ where_loop d (cond :: conds) = where_loop d conds.
Proof.
  intros d cond field op rest conds Hw H1 H2 H3.
  assert (E : where_condition d cond = Ok d).
  { unfold where_condition. rewrite Hw.
    destruct rest as [|v rest]; [reflexivity|].
    rewrite cast_value_eq. simpl.
    apply String.eqb_neq in H1, H2, H3. rewrite H1, H2, H3. reflexivity. }
  split; [exact E|]. simpl. rewrite E. reflexivity.
Qed.

Lemma C5_unsupported_operator_dropped_witness :
  where_condition ∅ "age != 30" = Ok ∅
  /\ where_loop ∅ ["age != 30"; "name LIKE 'x'"]
     = where_loop ∅ ["name LIKE 'x'"].
Proof.
  apply (C5_unsupported_operator_dropped ∅ "age != 30" "age" "!=" ["30"]);
    [reflexivity | discriminate | discriminate | discriminate].
Defined.

(** C6: for every value string, once its quotes are stripped, the cast
    tries [float] when the string contains a dot and [int] otherwise, and
    keeps the string when the attempt fails; so ['42'] becomes the integer
    42, ['3.14'] the float 3.14 (mantissa 314, exponent -2, which stands
    for 314/100), ['abc'] stays the string [abc] and
    ['1.2.3'] the string [1.2.3], also as the values of a WHERE
    condition. *)
Theorem C6_value_coercion :
  (forall val,
      cast_value val
      = Ok (if PyStr.contains_char "." val
            then match PyNum.py_float val with
                 | Ok f => VFloat f
                 | Raise _ => VStr val
                 end
            else match PyNum.py_int val with
                 | Ok n => VInt n
                 | Raise _ => VStr val
                 end))
  /\ cast_value (strip_quotes "'42'") = Ok (VInt 42)
  /\ cast_value (strip_quotes "'3.14'") = Ok (VFloat (FDec false 314 (-2)))
  /\ (exists q,
         PyNum.float_value (FDec false 314 (-2)) = Some q
         /\ Qeq q (Qmake 314 100))
  /\ cast_value (strip_quotes "'abc'") = Ok (VStr "abc")
  /\ cast_value (strip_quotes "'1.2.3'") = Ok (VStr "1.2.3")
  /\ _parse_where_clause (map tok ["k"; "="; "'42'"])
     = Ok {[ "k" := FScalar (VInt 42) ]}
  /\ _parse_where_clause (map tok ["k"; "="; "'3.14'"])
     = Ok {[ "k" := FScalar (VFloat (FDec false 314 (-2))) ]}
  /\ _parse_where_clause (map tok ["k"; "="; "'abc'"])
     = Ok {[ "k" := FScalar (VStr "abc") ]}
  /\ _parse_where_clause (map tok ["k"; "="; "'1.2.3'"])
     = Ok {[ "k" := FScalar (VStr "1.2.3") ]}.
Proof.
  split; [exact cast_value_eq|].
  split; [reflexivity|]. split; [reflexivity|].
  split; [eexists; split; [reflexivity|]; vm_compute; reflexivity|].
  repeat split; vm_compute; reflexivity.
Qed.

(** C8, as stated, fails in its second half: [SELECT a FROM] makes the
    translation raise [No collection specified], which is neither of the
    two EmptyQuery errors nor MissingFromClause. *)
Lemma C8_only_two_errors_counterexample :
  ~ (forall tokens e,
        translate tokens = Raise e ->
        e = EmptyQuery_unparsed \/ e = EmptyQuery_no_tokens
        \/ e = MissingFromClause).
Proof.
  intros H.
  destruct (H (map tok ["SELECT"; "a"; "FROM"]) NoCollection eq_refl)
    as [E|[E|E]]; discriminate E.
Qed.

(** C8, amended: the projection builder is a function defined on every
    input, a missing token included, and its result always maps [_id] to
    0; the filter translator returns a filter document on every token
    sequence and never raises; tokenization raises nothing but the two
    EmptyQuery errors; and clause location, on a token sequence whose last
    SELECT keyword is not the last token, raises nothing but
    MissingFromClause and [No collection specified]. *)
Theorem C8_builders_are_total :
  (forall fields_token, _build_projection fields_token !! "_id" = Some 0)
  /\ (forall tokens, exists d, _parse_where_clause tokens = Ok d)
  /\ (forall sqlparse_parse sql e,
         _parse_tokens sqlparse_parse sql = Raise e ->
         e = EmptyQuery_unparsed \/ e = EmptyQuery_no_tokens)
  /\ (forall tokens e,
         select_is_last tokens = false ->
         translate tokens = Raise e ->
         e = MissingFromClause \/ e = NoCollection).
Proof.
  split; [|split; [|split]].
  - intros [ft|]; unfold _build_projection.
    + destruct (String.eqb _ "*").
      * apply lookup_singleton_eq.
      * apply lookup_insert_eq.
    + apply lookup_singleton_eq.
  - exact parse_where_clause_ok.
  - intros parse sql e. unfold _parse_tokens.
    destruct (parse sql) as [|statement rest].
    + intros H; inversion H. left; reflexivity.
    + destruct (filter _ statement); intros H; inversion H.
      right; reflexivity.
  - intros tokens e Hlast. unfold translate. rewrite scan_eq. simpl.
    unfold build_query. simpl.
    destruct (last_index (is_kw "FROM") tokens) as [fi|];
      [|intros H; inversion H; left; reflexivity].
    unfold select_is_last in Hlast.
    destruct (last_index (is_kw "SELECT") tokens) as [si|].
    + apply Nat.leb_gt in Hlast. unfold list_index.
      destruct (nth_error tokens (si + 1)) as [x|] eqn:N;
        [|apply nth_error_None in N; lia].
      simpl.
      destruct (if (fi + 1 <? length tokens)%nat then _ else _) as [tbl|];
        [|intros H; inversion H; right; reflexivity].
      destruct (match last_index (is_kw "WHERE") tokens with
                | Some wi => _ | None => _ end) as [d|e'] eqn:W;
        [discriminate|].
      destruct (last_index (is_kw "WHERE") tokens) as [wi|];
        [|discriminate W].
      destruct (parse_where_clause_ok (skipn (wi + 1) tokens)) as [d' Hd].
      rewrite Hd in W. discriminate W.
    + simpl.
      destruct (if (fi + 1 <? length tokens)%nat then _ else _) as [tbl|];
        [|intros H; inversion H; right; reflexivity].
      destruct (match last_index (is_kw "WHERE") tokens with
                | Some wi => _ | None => _ end) as [d|e'] eqn:W;
        [discriminate|].
      destruct (last_index (is_kw "WHERE") tokens) as [wi|];
        [|discriminate W].
      destruct (parse_where_clause_ok (skipn (wi + 1) tokens)) as [d' Hd].
      rewrite Hd in W. discriminate W.
Qed.

Lemma C8_builders_are_total_witness :
  select_is_last (map tok ["SELECT"; "a"; "FROM"]) = false
  /\ (NoCollection = MissingFromClause \/ NoCollection = NoCollection).
Proof.
  split; [reflexivity|].
  apply (proj2 (proj2 (proj2 C8_builders_are_total))
           (map tok ["SELECT"; "a"; "FROM"]) NoCollection);
    reflexivity.
Defined.

(** ** C7: skip, then limit *)

Section Executor.

Variables Doc Row : Type.
Variable mongo_collection : string -> Res unit.
Variable mongo_docs : string -> FilterDoc -> Projection -> Res (list Doc).

Local Abbreviation exec :=
  (_execute_select_mongo Doc Row mongo_collection mongo_docs).
Local Abbreviation run := (execute Doc Row mongo_collection mongo_docs).
Local Abbreviation got := (fetched Doc mongo_docs).

Lemma execute_both q m n (w : World Row) :
  q_offset q = Some m -> q_limit q = Some n ->
  mongo_collection (collection_name q) = Ok tt -> 0 <= m ->
  run q w
  = (got q m n,
     mkWorld
       (calls w ++ [MongoCollection (collection_name q);
                    MongoFind (collection_name q) (filter_doc q) (projection q);
                    CursorSkip m; CursorLimit n; CursorList])
       (clock_reads w) (pg_rows w)).
Proof.
  intros Ho Hl Hc Hm.
  unfold execute, find, skip, limit, cursor_list, fetched, bind, log, lift,
    ret, raise.
  rewrite Ho, Hl, Hc. simpl.
  replace (m <? 0) with false by (symmetry; apply Z.ltb_ge; exact Hm).
  simpl. rewrite <- !app_assoc. simpl.
  destruct (mongo_docs _ _ _); reflexivity.
Qed.

Lemma execute_offset_only q m (w : World Row) :
  q_offset q = Some m -> q_limit q = None ->
  mongo_collection (collection_name q) = Ok tt -> 0 <= m ->
  run q w
  = (got q m 0,
     mkWorld
       (calls w ++ [MongoCollection (collection_name q);
                    MongoFind (collection_name q) (filter_doc q) (projection q);
                    CursorSkip m; CursorList])
       (clock_reads w) (pg_rows w)).
Proof.
  intros Ho Hl Hc Hm.
  unfold execute, find, skip, limit, cursor_list, fetched, bind, log, lift,
    ret, raise.
  rewrite Ho, Hl, Hc. simpl.
  replace (m <? 0) with false by (symmetry; apply Z.ltb_ge; exact Hm).
  simpl. rewrite <- !app_assoc. simpl.
  destruct (mongo_docs _ _ _); reflexivity.
Qed.

Lemma execute_limit_only q n (w : World Row) :
  q_offset q = None -> q_limit q = Some n ->
  mongo_collection (collection_name q) = Ok tt ->
  run q w
  = (got q 0 n,
     mkWorld
       (calls w ++ [MongoCollection (collection_name q);
                    MongoFind (collection_name q) (filter_doc q) (projection q);
                    CursorLimit n; CursorList])
       (clock_reads w) (pg_rows w)).
Proof.
  intros Ho Hl Hc.
  unfold execute, find, skip, limit, cursor_list, fetched, bind, log, lift,
    ret, raise.
  rewrite Ho, Hl, Hc. simpl.
  rewrite <- !app_assoc. simpl.
  destruct (mongo_docs _ _ _); reflexivity.
Qed.

Lemma window_skip_limit name f p m n (docs : list Doc) :
  0 <= m -> 0 < n ->
  window Doc (mkCursor name f p m n) docs
  = firstn (Z.to_nat n) (skipn (Z.to_nat m) docs).
Proof.
  intros Hm Hn. unfold window. simpl.
  replace (n =? 0) with false by (symmetry; apply Z.eqb_neq; lia).
  rewrite Z.abs_eq by lia. reflexivity.
Qed.

(** C7: on a collection the driver accepts, with an offset [m >= 0]:
    when a limit [n] and an offset [m] were parsed, the driver calls are
    find, [skip(m)], [limit(n)] and the enumeration, in this order, and
    for [n > 0] the result is the first [n] of the matching records that
    remain after the first [m]; when only the offset was parsed no
    [limit] call is made, and when only the limit was parsed no [skip]
    call is made; and [SELECT * FROM t LIMIT 10 OFFSET 5] returns the
    matching records without their first 5, cut to 10, so at most 10. *)
Theorem C7_skip_before_limit :
  (forall q m n (w : World Row),
      q_offset q = Some m -> q_limit q = Some n ->
      mongo_collection (collection_name q) = Ok tt -> 0 <= m ->
      calls (snd (run q w))
      = calls w ++ [MongoCollection (collection_name q);
                    MongoFind (collection_name q) (filter_doc q) (projection q);
                    CursorSkip m; CursorLimit n; CursorList]
      /\ fst (run q w) = got q m n
      /\ (0 < n ->
          forall docs,
            mongo_docs (collection_name q) (filter_doc q) (projection q)
            = Ok docs ->
            fst (run q w)
            = Ok (firstn (Z.to_nat n) (skipn (Z.to_nat m) docs))))
  /\ (forall q m (w : World Row),
         q_offset q = Some m -> q_limit q = None ->
         mongo_collection (collection_name q) = Ok tt -> 0 <= m ->
         calls (snd (run q w))
         = calls w ++ [MongoCollection (collection_name q);
                       MongoFind (collection_name q) (filter_doc q)
                         (projection q);
                       CursorSkip m; CursorList]
         /\ fst (run q w) = got q m 0)
  /\ (forall q n (w : World Row),
         q_offset q = None -> q_limit q = Some n ->
         mongo_collection (collection_name q) = Ok tt ->
         calls (snd (run q w))
         = calls w ++ [MongoCollection (collection_name q);
                       MongoFind (collection_name q) (filter_doc q)
                         (projection q);
                       CursorLimit n; CursorList]
         /\ fst (run q w) = got q 0 n)
  /\ (forall docs (w : World Row),
         mongo_collection "t" = Ok tt ->
         mongo_docs "t" ∅ {[ "_id" := 0 ]} = Ok docs ->
         let r :=
           exec (map tok ["SELECT"; "*"; "FROM"; "t";
                          "LIMIT"; "10"; "OFFSET"; "5"]) w in
         fst r = Ok (firstn 10 (skipn 5 docs))
         /\ (length (firstn 10 (skipn 5 docs)) <= 10)%nat
         /\ calls (snd r)
            = calls w ++ [MongoCollection "t";
                          MongoFind "t" ∅ {[ "_id" := 0 ]};
                          CursorSkip 5; CursorLimit 10; CursorList]).
Proof.
  split; [|split; [|split]].
  - intros q m n w Ho Hl Hc Hm.
    rewrite (execute_both q m n w Ho Hl Hc Hm). simpl.
    split; [reflexivity|]. split; [reflexivity|].
    intros Hn docs Hd. unfold fetched. rewrite Hd. simpl.
    rewrite window_skip_limit by assumption. reflexivity.
  - intros q m w Ho Hl Hc Hm.
    rewrite (execute_offset_only q m w Ho Hl Hc Hm). split; reflexivity.
  - intros q n w Ho Hl Hc.
    rewrite (execute_limit_only q n w Ho Hl Hc). split; reflexivity.
  - intros docs w Hc Hd.
    set (q := mkQuery "t" {[ "_id" := 0 ]} ∅ (Some 5) (Some 10)).
    assert (Ht : translate (map tok ["SELECT"; "*"; "FROM"; "t";
                                     "LIMIT"; "10"; "OFFSET"; "5"]) = Ok q)
      by (vm_compute; reflexivity).
    assert (He : exec (map tok ["SELECT"; "*"; "FROM"; "t";
                                "LIMIT"; "10"; "OFFSET"; "5"]) w = run q w)
      by (unfold _execute_select_mongo, bind, lift; rewrite Ht; reflexivity).
    cbv zeta. rewrite He.
    rewrite (execute_both q 5 10 w eq_refl eq_refl Hc) by lia.
    unfold fetched. simpl. rewrite Hd. simpl.
    split; [reflexivity|]. split; [|reflexivity].
    rewrite length_take. lia.
Qed.

End Executor.

(** C7 on a collection of twenty records, numbered from 0: the query
    [SELECT * FROM t LIMIT 10 OFFSET 5] returns the records 5 to 14. *)
Lemma C7_skip_before_limit_witness :
  fst (_execute_select_mongo nat nat (fun _ => Ok tt)
         (fun _ _ _ => Ok (seq 0 20))
         (map tok ["SELECT"; "*"; "FROM"; "t"; "LIMIT"; "10"; "OFFSET"; "5"])
         (mkWorld [] O None))
  = Ok (firstn 10 (skipn 5 (seq 0 20))).
Proof.
  refine (proj1 (proj2 (proj2 (proj2
            (C7_skip_before_limit nat nat (fun _ => Ok tt)
               (fun _ _ _ => Ok (seq 0 20)))))
            (seq 0 20) (mkWorld [] O None) eq_refl eq_refl)).
Defined.

(** ** C9: a failing backend fails the benchmark *)

Section Orchestrator.

Variables Doc Row Time : Type.
Variable time_sub : Time -> Time -> Time.
Variable sqlparse_parse : string -> list (list Token).
Variable mongo_collection : string -> Res unit.
Variable mongo_docs : string -> FilterDoc -> Projection -> Res (list Doc).
Variable pg_execute : string -> Res (option (list Row)).
Variable clock : nat -> Time.

Local Abbreviation run_mongo :=
  (run_mongo_select Doc Row Time time_sub sqlparse_parse mongo_collection
     mongo_docs clock).
Local Abbreviation run_pg :=
  (run_postgres_select Row Time time_sub pg_execute clock).
Local Abbreviation bench :=
  (speedtest Doc Row Time time_sub sqlparse_parse mongo_collection
     mongo_docs pg_execute clock).

(** C9: for every request with a non-empty query, with the outcome of
    the document-store call and then of the relational call on the
    actor: if the document-store call raised, the endpoint raises that
    error; if it returned and the relational call raised, the endpoint
    raises the error of the relational call, and what the document
    store returned is dropped; and the endpoint answers with a report
    only when both calls returned, the report carrying the two counts
    and the two times. *)
Theorem C9_failure_propagation :
  forall sql (w : World Row),
    sql <> "" ->
    let mongo := run_mongo sql (dispatched w) in
    let pg := run_pg sql (snd mongo) in
    (forall e, fst mongo = Raise e -> fst (bench sql w) = Raise e)
    /\ (forall r e,
           fst mongo = Ok r -> fst pg = Raise e ->
           fst (bench sql w) = Raise e)
    /\ (forall resp,
           fst (bench sql w) = Ok resp ->
           exists m p total,
             fst mongo = Ok m /\ fst pg = Ok p
             /\ resp = Report Time
                         (mkBenchmark Time total (snd m) (length (fst m))
                            (snd p) (length (fst p)))).
Proof.
  intros sql w Hne. cbv zeta.
  assert (Hb : bench sql w
    = match run_mongo sql (dispatched w) with
      | (rm, w1) =>
          match run_pg sql w1 with
          | (rp, w2) =>
              match rm, rp with
              | Raise e, _ => (Raise e, w2)
              | Ok _, Raise e => (Raise e, w2)
              | Ok m, Ok p =>
                  (Ok (Report Time
                         (mkBenchmark Time
                            (time_sub (clock (clock_reads w2))
                               (clock (clock_reads w)))
                            (snd m) (length (fst m))
                            (snd p) (length (fst p)))),
                   mkWorld (calls w2) (S (clock_reads w2)) (pg_rows w2))
              end
          end
      end).
  { unfold speedtest.
    replace (String.eqb sql "") with false
      by (symmetry; apply String.eqb_neq; exact Hne).
    unfold bind at 1. unfold perf_counter at 1. fold (dispatched w).
    unfold bind at 1. unfold remote at 1.
    destruct (run_mongo sql (dispatched w)) as [rm w1].
    unfold bind at 1. unfold remote at 1.
    destruct (run_pg sql w1) as [rp w2].
    unfold bind, ray_get, lift, perf_counter, ret.
    destruct rm as [m|e]; destruct rp as [p|e']; reflexivity. }
  rewrite Hb.
  destruct (run_mongo sql (dispatched w)) as [rm w1]. simpl.
  destruct (run_pg sql w1) as [rp w2]. simpl.
  split; [|split].
  - intros e ->. reflexivity.
  - intros r e -> ->. reflexivity.
  - intros resp H.
    destruct rm as [m|e]; destruct rp as [p|e']; simpl in H;
      try discriminate H.
    inversion H. eexists m, p, _. repeat split.
Qed.

End Orchestrator.

(** C9 at work: the document store answers [SELECT * FROM t] with three
    records, the relational store refuses the statement; the endpoint
    raises the error of the relational store. *)
Lemma C9_failure_propagation_witness :
  fst (speedtest nat nat nat Nat.sub
         (fun _ => [map tok ["SELECT"; "*"; "FROM"; "t"]])
         (fun _ => Ok tt) (fun _ _ _ => Ok [1; 2; 3]%nat)
         (fun _ => Raise (StoreError "relation does not exist"))
         (fun n => n) "SELECT * FROM t" (mkWorld [] O None))
  = Raise (StoreError "relation does not exist").
Proof.
  refine (proj1 (proj2
            (C9_failure_propagation nat nat nat Nat.sub
               (fun _ => [map tok ["SELECT"; "*"; "FROM"; "t"]])
               (fun _ => Ok tt) (fun _ _ _ => Ok [1; 2; 3]%nat)
               (fun _ => Raise (StoreError "relation does not exist"))
               (fun n => n) "SELECT * FROM t" (mkWorld [] O None) _))
            ([1; 2; 3]%nat, 1%nat) _ _ _).
  - discriminate.
  - reflexivity.
  - reflexivity.
Defined.

(** * Further properties of the adapter *)

(** ** The outcome of the translation *)

Lemma list_index_nth_error {A : Type} (l : list A) i :
  list_index l i
  = match nth_error l i with
    | Some x => Ok x
    | None => Raise (IndexError "list index out of range")
    end.
Proof. reflexivity. Qed.

Lemma where_filter_ok tokens : exists d, where_filter_of tokens = Ok d.
Proof.
  unfold where_filter_of.
  destruct (last_index (is_kw "WHERE") tokens) as [wi|].
  - apply parse_where_clause_ok.
  - eexists; reflexivity.
Qed.

(** What a successful translation has in its filter and its bounds. *)
Lemma translate_ok_fields tokens q :
  translate tokens = Ok q ->
  where_filter_of tokens = Ok (filter_doc q)
  /\ q_limit q = last_int "LIMIT" tokens
  /\ q_offset q = last_int "OFFSET" tokens.
Proof.
  unfold translate. rewrite scan_eq. simpl. unfold build_query. simpl.
  destruct (last_index (is_kw "FROM") tokens) as [fi|]; [|discriminate].
  destruct (match last_index (is_kw "SELECT") tokens with
            | Some si => _ | None => _ end) as [ft|e]; [|discriminate].
  simpl.
  destruct (if (fi + 1 <? length tokens)%nat then _ else _) as [tbl|];
    [|discriminate].
  fold (where_filter_of tokens).
  destruct (where_filter_of tokens) as [d|e]; [|discriminate].
  intros H; inversion H; subst q. simpl. repeat split.
Qed.

(** X1: the translation of lines 94-135, case by case.  With no FROM
    keyword it raises MissingFromClause; with a FROM keyword and the last
    SELECT keyword in last position it raises [IndexError]; otherwise,
    with no token after the last FROM, it raises [No collection
    specified]; in every other case it succeeds, the collection being the
    trimmed text of the token after the last FROM, the projection built
    from the token after the last SELECT, the filter from all the tokens
    after the last WHERE, and the bounds the integers read after LIMIT and
    OFFSET. *)
Theorem translate_outcome :
  forall tokens,
    match last_index (is_kw "FROM") tokens with
    | None => translate tokens = Raise MissingFromClause
    | Some fi =>
        if select_is_last tokens
        then translate tokens = Raise (IndexError "list index out of range")
        else
          match nth_error tokens (fi + 1) with
          | None => translate tokens = Raise NoCollection
          | Some tbl =>
              exists d,
                where_filter_of tokens = Ok d
                /\ translate tokens
                   = Ok (mkQuery (PyStr.strip (value tbl))
                           (_build_projection (fields_token_of tokens))
                           d (last_int "OFFSET" tokens)
                           (last_int "LIMIT" tokens))
          end
    end.
Proof.
  intros tokens. unfold translate. rewrite scan_eq. simpl.
  unfold build_query. simpl.
  destruct (last_index (is_kw "FROM") tokens) as [fi|]; [|reflexivity].
  unfold select_is_last, fields_token_of.
  assert (Htbl : (if (fi + 1 <? length tokens)%nat
                  then nth_error tokens (fi + 1) else None)
                 = nth_error tokens (fi + 1)).
  { destruct (fi + 1 <? length tokens)%nat eqn:E; [reflexivity|].
    symmetry. apply nth_error_None. apply Nat.ltb_ge in E. exact E. }
  rewrite Htbl. clear Htbl.
  destruct (where_filter_ok tokens) as [d Hd].
  destruct (last_index (is_kw "SELECT") tokens) as [si|].
  - rewrite list_index_nth_error.
    destruct (length tokens <=? si + 1)%nat eqn:E.
    + apply Nat.leb_le in E.
      replace (nth_error tokens (si + 1)) with (@None Token)
        by (symmetry; apply nth_error_None; exact E).
      reflexivity.
    + apply Nat.leb_gt in E.
      destruct (nth_error tokens (si + 1)) as [ft|] eqn:N;
        [|apply nth_error_None in N; lia].
      simpl. destruct (nth_error tokens (fi + 1)) as [tbl|]; [|reflexivity].
      exists d. split; [exact Hd|]. unfold where_filter_of in Hd.
      rewrite Hd. reflexivity.
  - simpl. destruct (nth_error tokens (fi + 1)) as [tbl|]; [|reflexivity].
    exists d. split; [exact Hd|]. unfold where_filter_of in Hd.
    rewrite Hd. reflexivity.
Qed.

(** ** The filter translator as a sequence of assignments *)

Lemma where_condition_entry d cond :
  where_condition d cond
  = Ok (match condition_entry cond with
        | Some (field, e) => <[ field := e ]> d
        | None => d
        end).
Proof.
  unfold where_condition, condition_entry.
  destruct (PyStr.words cond) as [|field [|op [|v rest]]]; try reflexivity.
  rewrite cast_value_eq. fold (cast_scalar (strip_quotes (PyStr.join " " (v :: rest)))).
  simpl res_bind. unfold entry_of.
  destruct (String.eqb op "="); [reflexivity|].
  destruct (String.eqb op ">"); [reflexivity|].
  destruct (String.eqb op "<"); reflexivity.
Qed.

Lemma where_loop_app d pre post :
  where_loop d (pre ++ post)
  = (let? d1 := where_loop d pre in where_loop d1 post).
Proof.
  revert d. induction pre as [|c pre IH]; intros d; simpl; [reflexivity|].
  rewrite where_condition_entry. simpl. apply IH.
Qed.

(** A field no condition assigns keeps what it had. *)
Lemma where_loop_silent field conds : forall d d',
  Forall (silent_on field) conds ->
  where_loop d conds = Ok d' ->
  d' !! field = d !! field.
Proof.
  induction conds as [|c conds IH]; intros d d' Hs H; simpl in H.
  - inversion H; reflexivity.
  - inversion Hs as [|? ? Hc Hrest]; subst.
    rewrite where_condition_entry in H. simpl in H.
    rewrite (IH _ _ Hrest H).
    destruct (condition_entry c) as [[f e]|] eqn:E; [|reflexivity].
    apply lookup_insert_ne. intros ->. exact (Hc e E).
Qed.

(** X2: in the loop of [_parse_where_clause] the last condition that
    assigns a field decides its entry: when a condition assigns [e] to
    [field] and no later condition assigns that field, the filter returned
    has [e] at [field], whatever the filter held before and whatever the
    earlier conditions assigned (a later condition on a field replaces an
    earlier one, the two are never merged). *)
Theorem where_last_condition_wins :
  forall d pre cond post field e,
    condition_entry cond = Some (field, e) ->
    Forall (silent_on field) post ->
    exists d',
      where_loop d (pre ++ cond :: post) = Ok d' /\ d' !! field = Some e.
Proof.
  intros d pre cond post field e Hc Hpost.
  destruct (where_loop_ok (pre ++ cond :: post) d) as [d' Hd'].
  exists d'. split; [exact Hd'|].
  rewrite where_loop_app in Hd'.
  destruct (where_loop_ok pre d) as [d1 Hd1]. rewrite Hd1 in Hd'.
  simpl in Hd'. rewrite where_condition_entry, Hc in Hd'. simpl in Hd'.
  rewrite (where_loop_silent field post _ _ Hpost Hd').
  apply lookup_insert_eq.
Qed.

Lemma where_last_condition_wins_witness :
  exists d',
    where_loop ∅ (["age > 30"] ++ "age < 50" :: ["name = 'x'"]) = Ok d'
    /\ d' !! "age" = Some (FOp "$lt" (VInt 50)).
Proof.
  apply (where_last_condition_wins ∅ ["age > 30"] "age < 50" ["name = 'x'"]
           "age" (FOp "$lt" (VInt 50))).
  - reflexivity.
  - repeat constructor. intros e H. vm_compute in H. discriminate H.
Defined.

(** X3: the filter translator never invents an entry: every entry of the
    filter it returns for a token span was assigned by one of the
    conditions of the span, and a condition assigns an entry only when it
    has at least three words and its second word is [=], [>] or [<]. *)
Theorem where_entries_come_from_conditions :
  forall tokens d field e,
    _parse_where_clause tokens = Ok d ->
    d !! field = Some e ->
    exists cond f op v rest,
      In cond (conditions_of tokens)
      /\ condition_entry cond = Some (field, e)
      /\ PyStr.words cond = f :: op :: v :: rest
      /\ (op = "=" \/ op = ">" \/ op = "<").
Proof.
  intros tokens d field e. unfold _parse_where_clause.
  fold (conditions_of tokens).
  generalize (conditions_of tokens) as conds.
  assert (G : forall conds (d0 : FilterDoc),
    where_loop d0 conds = Ok d -> d !! field = Some e ->
    d0 !! field = Some e
    \/ exists cond, In cond conds /\ condition_entry cond = Some (field, e)).
  { induction conds as [|c conds IH]; intros d0 H Hl; simpl in H.
    - inversion H; subst. left; exact Hl.
    - rewrite where_condition_entry in H. simpl in H.
      destruct (IH _ H Hl) as [H0|(cond & Hin & Hc)].
      + destruct (condition_entry c) as [[f e']|] eqn:E; [|left; exact H0].
        destruct (decide (f = field)) as [->|Hne].
        * rewrite lookup_insert_eq in H0. inversion H0; subst.
          right. exists c. split; [left; reflexivity|exact E].
        * rewrite lookup_insert_ne in H0 by exact Hne. left; exact H0.
      + right. exists cond. split; [right; exact Hin|exact Hc]. }
  intros conds H Hl.
  destruct (G conds ∅ H Hl) as [H0|(cond & Hin & Hc)].
  - rewrite lookup_empty in H0. discriminate H0.
  - pose proof Hc as Hc'. unfold condition_entry in Hc'.
    destruct (PyStr.words cond) as [|f [|op [|v rest]]] eqn:W;
      try discriminate Hc'.
    exists cond, f, op, v, rest.
    split; [exact Hin|]. split; [exact Hc|]. split; [exact W|].
    unfold entry_of in Hc'.
    destruct (String.eqb_spec op "="); [left; assumption|].
    destruct (String.eqb_spec op ">"); [right; left; assumption|].
    destruct (String.eqb_spec op "<"); [right; right; assumption|].
    discriminate Hc'.
Qed.

Lemma where_entries_come_from_conditions_witness :
  exists cond f op v rest,
    In cond (conditions_of (map tok ["age"; ">"; "30"; "AND"; "n"; "!="; "1"]))
    /\ condition_entry cond = Some ("age", FOp "$gt" (VInt 30))
    /\ PyStr.words cond = f :: op :: v :: rest
    /\ (op = "=" \/ op = ">" \/ op = "<").
Proof.
  apply (where_entries_come_from_conditions
           (map tok ["age"; ">"; "30"; "AND"; "n"; "!="; "1"])
           (<[ "age" := FOp "$gt" (VInt 30) ]> ∅)).
  - vm_compute. reflexivity.
  - reflexivity.
Defined.

(** ** The projection as a set of column names *)

Lemma fold_insert_lookup_in (parts : list string) : forall (m : Projection) k,
  In k parts ->
  fold_left (fun d col => <[ col := 1 ]> d) parts m !! k = Some 1.
Proof.
  induction parts as [|p parts IH]; intros m k Hin; [destruct Hin|].
  simpl. destruct (in_dec string_dec k parts) as [Hk|Hk].
  - apply IH, Hk.
  - destruct Hin as [->|Hin]; [|contradiction].
    clear IH. revert m. induction parts as [|q parts IH]; intros m; simpl.
    + apply lookup_insert_eq.
    + assert (Hq : q <> k) by (intros ->; apply Hk; left; reflexivity).
      rewrite insert_insert_ne by exact Hq.
      apply IH. intros H; apply Hk; right; exact H.
Qed.

Lemma fold_insert_lookup_notin (parts : list string) :
  forall (m : Projection) k,
  ~ In k parts ->
  fold_left (fun d col => <[ col := 1 ]> d) parts m !! k = m !! k.
Proof.
  induction parts as [|p parts IH]; intros m k Hk; [reflexivity|].
  simpl. rewrite IH by (intros H; apply Hk; right; exact H).
  apply lookup_insert_ne. intros ->. apply Hk. left; reflexivity.
Qed.

(** X4: for a field-list token whose trimmed text is not [*], the
    projection has [_id] at 0, also when the list names [_id]; it has 1
    at every other name of the list (the parts between commas, with the
    parentheses removed, trimmed, the parts that read SELECT dropped),
    the empty name of an empty part included; and it has no other key. *)
Theorem projection_lookup :
  forall ft,
    PyStr.strip (value ft) <> "*" ->
    _build_projection (Some ft) !! "_id" = Some 0
    /\ (forall k,
           k <> "_id" -> In k (projection_parts ft) ->
           _build_projection (Some ft) !! k = Some 1)
    /\ (forall k,
           k <> "_id" -> ~ In k (projection_parts ft) ->
           _build_projection (Some ft) !! k = None).
Proof.
  intros ft Hstar. unfold _build_projection.
  replace (String.eqb (PyStr.strip (value ft)) "*") with false
    by (symmetry; apply String.eqb_neq; exact Hstar).
  fold (projection_parts ft).
  split; [apply lookup_insert_eq|]. split; intros k Hk Hin.
  - rewrite lookup_insert_ne by (intros H; apply Hk; symmetry; exact H).
    apply fold_insert_lookup_in, Hin.
  - rewrite lookup_insert_ne by (intros H; apply Hk; symmetry; exact H).
    rewrite fold_insert_lookup_notin by exact Hin. apply lookup_empty.
Qed.

Lemma projection_lookup_witness :
  _build_projection (Some (tok "(a, _id,,b)")) !! "_id" = Some 0
  /\ _build_projection (Some (tok "(a, _id,,b)")) !! "" = Some 1
  /\ _build_projection (Some (tok "(a, _id,,b)")) !! "c" = None.
Proof.
  destruct (projection_lookup (tok "(a, _id,,b)")) as (H0 & H1 & H2);
    [discriminate|].
  split; [exact H0|]. split.
  - apply H1; [discriminate|]. vm_compute. tauto.
  - apply H2; [discriminate|]. vm_compute.
    intros [H|[H|[H|[H|[]]]]]; discriminate H.
Defined.

(** ** Tokenization *)

(** X5: when [_parse_tokens] succeeds, the tokens it returns are the
    tokens of the first statement that are not white space, in their
    order; there is at least one of them, and the statements after the
    first play no part. *)
Theorem parse_tokens_first_statement :
  forall sqlparse_parse sql tokens,
    _parse_tokens sqlparse_parse sql = Ok tokens ->
    tokens <> []
    /\ Forall (fun t => is_whitespace t = false) tokens
    /\ exists statement later,
         sqlparse_parse sql = statement :: later
         /\ tokens = filter (fun t => negb (is_whitespace t)) statement
         /\ forall other sql',
              other sql' = statement :: [] ->
              _parse_tokens other sql' = Ok tokens.
Proof.
  intros parse sql tokens. unfold _parse_tokens.
  destruct (parse sql) as [|statement later]; [discriminate|].
  destruct (filter (fun t => negb (is_whitespace t)) statement)
    as [|t ts] eqn:F; [discriminate|].
  intros H; inversion H; subst. split; [discriminate|]. split.
  - rewrite <- F. apply Forall_forall. intros x Hx.
    apply list_elem_of_filter in Hx. destruct Hx as [Hx _].
    destruct (is_whitespace x); [destruct Hx|reflexivity].
  - exists statement, later. split; [reflexivity|].
    split; [symmetry; exact F|].
    intros other sql' ->. rewrite F. reflexivity.
Qed.

Lemma parse_tokens_first_statement_witness :
  _parse_tokens
    (fun _ => [[tok "SELECT"; mkToken " " true; tok "1"]; [tok "x"]]) "q"
  = Ok [tok "SELECT"; tok "1"]
  /\ [tok "SELECT"; tok "1"] <> [].
Proof.
  split; [reflexivity|].
  apply (parse_tokens_first_statement
           (fun _ => [[tok "SELECT"; mkToken " " true; tok "1"]; [tok "x"]])
           "q" [tok "SELECT"; tok "1"] eq_refl).
Defined.

(** ** The two methods of the actor *)

Section ActorMethods.

Variables Doc Row Time : Type.
Variable time_sub : Time -> Time -> Time.
Variable sqlparse_parse : string -> list (list Token).
Variable mongo_collection : string -> Res unit.
Variable mongo_docs : string -> FilterDoc -> Projection -> Res (list Doc).
Variable pg_execute : string -> Res (option (list Row)).
Variable clock : nat -> Time.

Local Abbreviation exec :=
  (_execute_select_mongo Doc Row mongo_collection mongo_docs).
Local Abbreviation run := (execute Doc Row mongo_collection mongo_docs).
Local Abbreviation run_mongo :=
  (run_mongo_select Doc Row Time time_sub sqlparse_parse mongo_collection
     mongo_docs clock).
Local Abbreviation run_pg :=
  (run_postgres_select Row Time time_sub pg_execute clock).
Local Abbreviation parse := (_parse_tokens sqlparse_parse).

(** What [execute] leaves of the state: calls of the document-store driver
    added, five at most, and nothing else changed. *)
Lemma execute_frame q (w : World Row) :
  exists new,
    snd (run q w) = mkWorld (calls w ++ new) (clock_reads w) (pg_rows w)
    /\ Forall (fun c => is_mongo_call c = true) new
    /\ (length new <= 5)%nat.
Proof.
  unfold execute, find, skip, limit, cursor_list, bind, log, lift, ret, raise.
  simpl.
  destruct (mongo_collection (collection_name q)) as [[]|e]; simpl;
    [|eexists; split; [reflexivity|];
      split; [repeat constructor|simpl; lia]].
  destruct (q_offset q) as [m|]; simpl.
  - destruct (m <? 0); simpl;
      [rewrite <- !app_assoc; eexists; split; [reflexivity|];
       split; [repeat constructor|simpl; lia]|].
    destruct (q_limit q) as [n|]; simpl;
      destruct (mongo_docs _ _ _); simpl; rewrite <- !app_assoc;
      eexists; (split; [reflexivity|]);
      (split; [repeat constructor|simpl; lia]).
  - destruct (q_limit q) as [n|]; simpl;
      destruct (mongo_docs _ _ _); simpl; rewrite <- !app_assoc;
      eexists; (split; [reflexivity|]);
      (split; [repeat constructor|simpl; lia]).
Qed.

Lemma exec_frame tokens (w : World Row) :
  exists new,
    snd (exec tokens w) = mkWorld (calls w ++ new) (clock_reads w) (pg_rows w)
    /\ Forall (fun c => is_mongo_call c = true) new
    /\ (length new <= 5)%nat.
Proof.
  unfold _execute_select_mongo, bind, lift.
  destruct (translate tokens) as [q|e].
  - apply execute_frame.
  - exists []. rewrite app_nil_r. destruct w. simpl.
    split; [reflexivity|]. split; [constructor|lia].
Qed.

(** [run_mongo_select], step by step. *)
Lemma run_mongo_unfold sql (w : World Row) :
  run_mongo sql w
  = match parse sql with
    | Raise e => (Raise e, w)
    | Ok tokens =>
        match exec tokens (dispatched w) with
        | (Ok docs, w1) =>
            (Ok (docs,
                 time_sub (clock (clock_reads w1)) (clock (clock_reads w))),
             mkWorld (calls w1) (S (clock_reads w1)) (pg_rows w1))
        | (Raise e, w1) => (Raise e, w1)
        end
    end.
Proof.
  unfold run_mongo_select, bind, lift, perf_counter, ret, dispatched.
  destruct (parse sql) as [tokens|e]; reflexivity.
Qed.

(** What [run_mongo_select] adds to the calls, and what it reads of the
    clock when it returns. *)
Lemma run_mongo_frame sql (w : World Row) :
  (exists new,
     calls (snd (run_mongo sql w)) = calls w ++ new
     /\ Forall (fun c => is_mongo_call c = true) new)
  /\ (forall r,
        fst (run_mongo sql w) = Ok r ->
        snd r = time_sub (clock (S (clock_reads w))) (clock (clock_reads w))
        /\ clock_reads (snd (run_mongo sql w)) = S (S (clock_reads w))).
Proof.
  rewrite run_mongo_unfold.
  destruct (parse sql) as [tokens|e].
  - destruct (exec_frame tokens (dispatched w)) as (new & Hw & Hm & _).
    destruct (exec tokens (dispatched w)) as [[docs|e] w1];
      simpl in *; subst w1; simpl.
    + split; [exists new; split; [reflexivity|exact Hm]|].
      intros r Hr; inversion Hr; subst r. split; reflexivity.
    + split; [exists new; split; [reflexivity|exact Hm]|]. discriminate.
  - simpl. split; [|discriminate].
    exists []. rewrite app_nil_r. split; [reflexivity|constructor].
Qed.

(** X6: [run_mongo_select] does not time the tokenization.  When
    [_parse_tokens] raises, the error propagates with the state untouched:
    the clock has not been read.  Otherwise the clock is read once before
    [_execute_select_mongo]; if that raises, the error propagates after
    this one reading, and if it returns, the clock is read a second time
    and the elapsed time is the difference of these two consecutive
    readings. *)
Theorem run_mongo_select_timing :
  forall sql (w : World Row),
    match parse sql with
    | Raise e => run_mongo sql w = (Raise e, w)
    | Ok tokens =>
        match fst (exec tokens (dispatched w)) with
        | Raise e =>
            fst (run_mongo sql w) = Raise e
            /\ clock_reads (snd (run_mongo sql w)) = S (clock_reads w)
        | Ok docs =>
            fst (run_mongo sql w)
            = Ok (docs,
                  time_sub (clock (S (clock_reads w))) (clock (clock_reads w)))
            /\ clock_reads (snd (run_mongo sql w)) = S (S (clock_reads w))
        end
    end.
Proof.
  intros sql w. rewrite run_mongo_unfold.
  destruct (parse sql) as [tokens|e]; [|reflexivity].
  destruct (exec_frame tokens (dispatched w)) as (new & Hw & _ & _).
  destruct (exec tokens (dispatched w)) as [[docs|e] w1];
    simpl in *; subst w1; split; reflexivity.
Qed.

(** X7: [run_mongo_select] talks to the document store only: whatever the
    query and the outcome, the calls it adds are calls of the
    document-store driver, five at most (the collection, [find], [skip],
    [limit] and the enumeration), and the result set the relational
    cursor holds is left as it was. *)
Theorem run_mongo_select_calls :
  forall sql (w : World Row),
  exists new,
    calls (snd (run_mongo sql w)) = calls w ++ new
    /\ Forall (fun c => is_mongo_call c = true) new
    /\ (length new <= 5)%nat
    /\ pg_rows (snd (run_mongo sql w)) = pg_rows w.
Proof.
  intros sql w. rewrite run_mongo_unfold.
  destruct (parse sql) as [tokens|e].
  - destruct (exec_frame tokens (dispatched w)) as (new & Hw & Hm & Hl).
    exists new.
    destruct (exec tokens (dispatched w)) as [[docs|e] w1];
      simpl in *; subst w1; simpl; repeat split; assumption.
  - exists []. simpl. rewrite app_nil_r.
    repeat split; [constructor|lia].
Qed.

(** X8: the three outcomes of [run_postgres_select].  The text it is given
    goes to [cursor.execute] as it is.  When that raises, the error
    propagates and nothing is fetched; when the statement has no result
    set, the rows are the empty list and [fetchall] is not called; when it
    has one, [fetchall] is called once and its rows are returned.  In the
    two last cases the elapsed time is the difference of two consecutive
    clock readings. *)
Theorem run_postgres_select_outcome :
  forall sql (w : World Row),
    let n := clock_reads w in
    match pg_execute sql with
    | Raise e =>
        run_pg sql w
        = (Raise e, mkWorld (calls w ++ [PgExecute sql]) (S n) (pg_rows w))
    | Ok None =>
        run_pg sql w
        = (Ok ([], time_sub (clock (S n)) (clock n)),
           mkWorld (calls w ++ [PgExecute sql]) (S (S n)) None)
    | Ok (Some rows) =>
        run_pg sql w
        = (Ok (rows, time_sub (clock (S n)) (clock n)),
           mkWorld (calls w ++ [PgExecute sql; PgFetchall]) (S (S n))
             (Some rows))
    end.
Proof.
  intros sql w. cbv zeta.
  unfold run_postgres_select, pg_cursor_execute, pg_cursor_description,
    pg_cursor_fetchall, bind, perf_counter, log, lift, ret.
  simpl.
  destruct (pg_execute sql) as [[rows|]|e]; simpl;
    rewrite <- ?app_assoc; reflexivity.
Qed.

Local Abbreviation bench :=
  (speedtest Doc Row Time time_sub sqlparse_parse mongo_collection
     mongo_docs pg_execute clock).

(** [speedtest] on a non-empty query, step by step. *)
Lemma speedtest_unfold sql (w : World Row) :
  sql <> "" ->
  bench sql w
  = match run_mongo sql (dispatched w) with
    | (rm, w1) =>
        match run_pg sql w1 with
        | (rp, w2) =>
            match rm, rp with
            | Raise e, _ => (Raise e, w2)
            | Ok _, Raise e => (Raise e, w2)
            | Ok m, Ok p =>
                (Ok (Report Time
                       (mkBenchmark Time
                          (time_sub (clock (clock_reads w2))
                             (clock (clock_reads w)))
                          (snd m) (length (fst m))
                          (snd p) (length (fst p)))),
                 mkWorld (calls w2) (S (clock_reads w2)) (pg_rows w2))
            end
        end
    end.
Proof.
  intros Hne. unfold speedtest.
  replace (String.eqb sql "") with false
    by (symmetry; apply String.eqb_neq; exact Hne).
  unfold bind at 1. unfold perf_counter at 1. fold (dispatched w).
  unfold bind at 1. unfold remote at 1.
  destruct (run_mongo sql (dispatched w)) as [rm w1].
  unfold bind at 1. unfold remote at 1.
  destruct (run_pg sql w1) as [rp w2].
  unfold bind, ray_get, lift, perf_counter, ret.
  destruct rm as [m|e]; destruct rp as [p|e']; reflexivity.
Qed.

Lemma run_pg_calls sql (w : World Row) :
  clock_reads (snd (run_pg sql w))
  = (match fst (run_pg sql w) with
     | Ok _ => S (S (clock_reads w))
     | Raise _ => S (clock_reads w)
     end)
  /\ (calls (snd (run_pg sql w)) = calls w ++ [PgExecute sql]
      \/ calls (snd (run_pg sql w)) = calls w ++ [PgExecute sql; PgFetchall])
  /\ (forall p, fst (run_pg sql w) = Ok p ->
      snd p = time_sub (clock (S (clock_reads w))) (clock (clock_reads w))).
Proof.
  unfold run_postgres_select, pg_cursor_execute, pg_cursor_description,
    pg_cursor_fetchall, bind, perf_counter, log, lift, ret.
  simpl.
  destruct (pg_execute sql) as [[rows|]|e]; simpl; rewrite <- ?app_assoc.
  - split; [reflexivity|]. split; [right; reflexivity|].
    intros p Hp; inversion Hp; reflexivity.
  - split; [reflexivity|]. split; [left; reflexivity|].
    intros p Hp; inversion Hp; reflexivity.
  - split; [reflexivity|]. split; [left; reflexivity|]. discriminate.
Qed.

(** X9: on the empty query [speedtest] answers 400 and calls nothing.  On
    every other query both methods of the actor are called, whatever the
    first one does: the calls of the document-store driver, if any, are
    followed by [cursor.execute] of the relational driver on the very
    text of the query, also when the translation of that text has
    failed. *)
Theorem speedtest_dispatches_both :
  forall sql (w : World Row),
    (sql = "" ->
     bench sql w = (Ok (BadRequest Time "No SQL query provided"), w))
    /\ (sql <> "" ->
        exists mongo_calls pg_calls,
          calls (snd (bench sql w)) = calls w ++ mongo_calls ++ pg_calls
          /\ Forall (fun c => is_mongo_call c = true) mongo_calls
          /\ (pg_calls = [PgExecute sql]
              \/ pg_calls = [PgExecute sql; PgFetchall])).
Proof.
  intros sql w. split; [intros ->; reflexivity|].
  intros Hne. rewrite (speedtest_unfold sql w Hne).
  destruct (run_mongo_frame sql (dispatched w)) as [(new & Hc & Hm) _].
  destruct (run_mongo sql (dispatched w)) as [rm w1]. simpl in Hc.
  destruct (run_pg_calls sql w1) as (_ & Hp & _).
  destruct (run_pg sql w1) as [rp w2]. simpl in Hp.
  exists new.
  destruct Hp as [Hp|Hp]; eexists; rewrite app_assoc, <- Hc;
    (split; [|split; [exact Hm|]]);
    [|left; reflexivity| |right; reflexivity];
    destruct rm as [m|e]; destruct rp as [p|e']; simpl; exact Hp.
Qed.

(** X10: when [speedtest] answers with a report, [n] being the number of
    clock readings taken before, the total is the difference of the
    readings [n + 5] and [n], the time of the document store that of the
    readings [n + 2] and [n + 1], the time of the relational store that
    of the readings [n + 4] and [n + 3]: the interval of the total
    encloses the two others, and six readings are taken in all. *)
Theorem speedtest_report_times :
  forall sql (w : World Row) r,
    fst (bench sql w) = Ok (Report Time r) ->
    let n := clock_reads w in
    total_parallel_time Time r = time_sub (clock (n + 5)) (clock n)
    /\ mongo_in_the_middle_time Time r
       = time_sub (clock (n + 2)) (clock (n + 1))
    /\ native_postgres_time Time r = time_sub (clock (n + 4)) (clock (n + 3))
    /\ clock_reads (snd (bench sql w)) = (n + 6)%nat.
Proof.
  intros sql w r H. cbv zeta.
  destruct (String.eqb_spec sql "") as [->|Hne]; [discriminate H|].
  rewrite (speedtest_unfold sql w Hne) in *.
  destruct (run_mongo_frame sql (dispatched w)) as [_ Hm].
  destruct (run_mongo sql (dispatched w)) as [[m|e] w1]; simpl in Hm.
  - destruct (Hm m eq_refl) as [Hm1 Hm2].
    destruct (run_pg_calls sql w1) as (Hp1 & _ & Hp3).
    destruct (run_pg sql w1) as [[p|e] w2]; [|discriminate H].
    simpl in *. specialize (Hp3 p eq_refl).
    inversion H; subst r. simpl.
    rewrite Hp1, Hp3, Hm1, Hm2.
    replace (clock_reads w + 5)%nat with (S (S (S (S (S (clock_reads w))))))
      by lia.
    replace (clock_reads w + 2)%nat with (S (S (clock_reads w))) by lia.
    replace (clock_reads w + 1)%nat with (S (clock_reads w)) by lia.
    replace (clock_reads w + 4)%nat with (S (S (S (S (clock_reads w)))))
      by lia.
    replace (clock_reads w + 3)%nat with (S (S (S (clock_reads w)))) by lia.
    replace (clock_reads w + 6)%nat
      with (S (S (S (S (S (S (clock_reads w))))))) by lia.
    repeat split; reflexivity.
  - destruct (run_pg sql w1) as [rp w2]. discriminate H.
Qed.

End ActorMethods.

(** X9 at work: [SELECT 1] has no FROM clause, the translation fails, and
    the relational store is sent the text all the same. *)
Lemma speedtest_dispatches_both_witness :
  exists mongo_calls pg_calls,
    calls (snd (speedtest nat nat nat Nat.sub
                  (fun _ => [map tok ["SELECT"; "1"]])
                  (fun _ => Ok tt) (fun _ _ _ => Ok [])
                  (fun _ => Ok (Some [1%nat])) (fun n => n)
                  "SELECT 1" (mkWorld [] O None)))
    = [] ++ mongo_calls ++ pg_calls
    /\ Forall (fun c => is_mongo_call c = true) mongo_calls
    /\ (pg_calls = [PgExecute "SELECT 1"]
        \/ pg_calls = [PgExecute "SELECT 1"; PgFetchall]).
Proof.
  apply (proj2 (speedtest_dispatches_both nat nat nat Nat.sub
                  (fun _ => [map tok ["SELECT"; "1"]])
                  (fun _ => Ok tt) (fun _ _ _ => Ok [])
                  (fun _ => Ok (Some [1%nat])) (fun n => n)
                  "SELECT 1" (mkWorld [] O None))).
  discriminate.
Defined.

(** X10 at work, with a clock that counts its readings. *)
Lemma speedtest_report_times_witness :
  total_parallel_time nat (mkBenchmark nat 5%nat 1%nat 3%nat 1%nat 1%nat)
  = Nat.sub (0 + 5) 0
  /\ mongo_in_the_middle_time nat
       (mkBenchmark nat 5%nat 1%nat 3%nat 1%nat 1%nat)
     = Nat.sub (0 + 2) (0 + 1)
  /\ native_postgres_time nat
       (mkBenchmark nat 5%nat 1%nat 3%nat 1%nat 1%nat)
     = Nat.sub (0 + 4) (0 + 3)
  /\ clock_reads
       (snd (speedtest nat nat nat Nat.sub
               (fun _ => [map tok ["SELECT"; "*"; "FROM"; "t"]])
               (fun _ => Ok tt) (fun _ _ _ => Ok [1; 2; 3]%nat)
               (fun _ => Ok (Some [7%nat])) (fun n => n)
               "SELECT * FROM t" (mkWorld [] O None)))
     = (0 + 6)%nat.
Proof.
  apply (speedtest_report_times nat nat nat Nat.sub
           (fun _ => [map tok ["SELECT"; "*"; "FROM"; "t"]])
           (fun _ => Ok tt) (fun _ _ _ => Ok [1; 2; 3]%nat)
           (fun _ => Ok (Some [7%nat])) (fun n => n)
           "SELECT * FROM t" (mkWorld [] O None)
           (mkBenchmark nat 5%nat 1%nat 3%nat 1%nat 1%nat)).
  reflexivity.
Defined.

(** ** The executor at its edges *)

Section ExecutorEdges.

Variables Doc Row : Type.
Variable mongo_collection : string -> Res unit.
Variable mongo_docs : string -> FilterDoc -> Projection -> Res (list Doc).

Local Abbreviation run := (execute Doc Row mongo_collection mongo_docs).

(** X11: failures of the document store pass through [execute] as they
    are, and nothing is tried twice.  When the driver refuses the
    collection, its error is raised before any [find].  When the
    enumeration of the cursor fails (no negative offset having been
    parsed), its error is raised, the enumeration being the last call and
    the only one of its kind. *)
Theorem execute_store_failures :
  forall q e (w : World Row),
    (mongo_collection (collection_name q) = Raise e ->
     run q w
     = (Raise e,
        mkWorld (calls w ++ [MongoCollection (collection_name q)])
          (clock_reads w) (pg_rows w)))
    /\ (mongo_collection (collection_name q) = Ok tt ->
        mongo_docs (collection_name q) (filter_doc q) (projection q) = Raise e ->
        match q_offset q with
        | Some m => 0 <= m
        | None => True
        end ->
        exists before,
          run q w
          = (Raise e,
             mkWorld (calls w ++ before ++ [CursorList])
               (clock_reads w) (pg_rows w))
          /\ ~ In CursorList before).
Proof.
  intros q e w. split.
  - intros Hc. unfold execute, find, bind, log, lift. simpl.
    rewrite Hc. reflexivity.
  - intros Hc Hd Hm.
    unfold execute, find, skip, limit, cursor_list, bind, log, lift, ret, raise.
    simpl. rewrite Hc. simpl.
    destruct (q_offset q) as [m|]; simpl.
    + replace (m <? 0) with false by (symmetry; apply Z.ltb_ge; exact Hm).
      simpl. destruct (q_limit q) as [n|]; simpl; rewrite Hd; simpl;
        rewrite <- !app_assoc; simpl.
      * exists [MongoCollection (collection_name q);
                MongoFind (collection_name q) (filter_doc q) (projection q);
                CursorSkip m; CursorLimit n].
        split; [reflexivity|].
        intros [H|[H|[H|[H|[]]]]]; discriminate H.
      * exists [MongoCollection (collection_name q);
                MongoFind (collection_name q) (filter_doc q) (projection q);
                CursorSkip m].
        split; [reflexivity|].
        intros [H|[H|[H|[]]]]; discriminate H.
    + destruct (q_limit q) as [n|]; simpl; rewrite Hd; simpl;
        rewrite <- !app_assoc; simpl.
      * exists [MongoCollection (collection_name q);
                MongoFind (collection_name q) (filter_doc q) (projection q);
                CursorLimit n].
        split; [reflexivity|].
        intros [H|[H|[H|[]]]]; discriminate H.
      * exists [MongoCollection (collection_name q);
                MongoFind (collection_name q) (filter_doc q) (projection q)].
        split; [reflexivity|].
        intros [H|[H|[]]]; discriminate H.
Qed.

(** X12: a negative offset is not screened by the adapter: it reaches
    [cursor.skip], which refuses it with a [ValueError]; the call raises,
    no [limit] is set and the cursor is never enumerated. *)
Theorem execute_negative_offset :
  forall q m (w : World Row),
    q_offset q = Some m -> m < 0 ->
    mongo_collection (collection_name q) = Ok tt ->
    (exists e, fst (run q w) = Raise e /\ is_value_error e = true)
    /\ calls (snd (run q w))
       = calls w ++ [MongoCollection (collection_name q);
                     MongoFind (collection_name q) (filter_doc q) (projection q);
                     CursorSkip m].
Proof.
  intros q m w Ho Hm Hc.
  unfold execute, find, skip, limit, cursor_list, bind, log, lift, ret, raise.
  simpl. rewrite Hc, Ho. simpl.
  replace (m <? 0) with true by (symmetry; apply Z.ltb_lt; exact Hm).
  simpl. rewrite <- !app_assoc. simpl.
  split; [eexists; split; reflexivity|reflexivity].
Qed.

(** X13: a limit of 0 is handed to [cursor.limit] as it is, and for the
    driver 0 means no limit.  With [LIMIT 0] parsed, on a collection the
    driver accepts and with no negative offset, the calls are the
    collection, [find], [skip] if an offset was parsed, [limit(0)] and the
    enumeration; the call returns all the matching records after the
    offset, which is what it returns when no limit was parsed. *)
Theorem execute_limit_zero :
  forall q (w : World Row),
    q_limit q = Some 0 ->
    mongo_collection (collection_name q) = Ok tt ->
    match q_offset q with
    | Some m => 0 <= m
    | None => True
    end ->
    calls (snd (run q w))
    = calls w
      ++ [MongoCollection (collection_name q);
          MongoFind (collection_name q) (filter_doc q) (projection q)]
      ++ match q_offset q with
         | Some m => [CursorSkip m]
         | None => []
         end
      ++ [CursorLimit 0; CursorList]
    /\ fst (run q w)
       = (let? docs :=
            mongo_docs (collection_name q) (filter_doc q) (projection q) in
          Ok (skipn
                (Z.to_nat match q_offset q with
                          | Some m => m
                          | None => 0
                          end)
                docs))
    /\ fst (run q w)
       = fst (run (mkQuery (collection_name q) (projection q) (filter_doc q)
                     (q_offset q) None) w).
Proof.
  intros q w Hl Hc Hm.
  unfold execute, find, skip, limit, cursor_list, bind, log, lift, ret, raise.
  simpl. rewrite Hl, Hc. simpl.
  destruct (q_offset q) as [m|]; simpl.
  - replace (m <? 0) with false by (symmetry; apply Z.ltb_ge; exact Hm).
    simpl. rewrite <- !app_assoc. simpl.
    destruct (mongo_docs _ _ _); repeat split; reflexivity.
  - rewrite <- !app_assoc. simpl.
    destruct (mongo_docs _ _ _); repeat split; reflexivity.
Qed.

End ExecutorEdges.

Lemma execute_store_failures_witness :
  execute nat nat (fun _ => Raise (StoreError "invalid name"))
    (fun _ _ _ => Ok [])
    (mkQuery "a..b" {[ "_id" := 0 ]} ∅ None None) (mkWorld [] O None)
  = (Raise (StoreError "invalid name"),
     mkWorld ([] ++ [MongoCollection "a..b"]) O None).
Proof.
  exact (proj1 (execute_store_failures nat nat
                  (fun _ => Raise (StoreError "invalid name"))
                  (fun _ _ _ => Ok [])
                  (mkQuery "a..b" {[ "_id" := 0 ]} ∅ None None)
                  (StoreError "invalid name") (mkWorld [] O None))
           eq_refl).
Defined.

Lemma execute_negative_offset_witness :
  calls (snd (execute nat nat (fun _ => Ok tt) (fun _ _ _ => Ok [1%nat])
                (mkQuery "t" {[ "_id" := 0 ]} ∅ (Some (-1)) (Some 10))
                (mkWorld [] O None)))
  = [] ++ [MongoCollection "t"; MongoFind "t" ∅ {[ "_id" := 0 ]};
           CursorSkip (-1)].
Proof.
  exact (proj2 (execute_negative_offset nat nat (fun _ => Ok tt)
                  (fun _ _ _ => Ok [1%nat])
                  (mkQuery "t" {[ "_id" := 0 ]} ∅ (Some (-1)) (Some 10))
                  (-1) (mkWorld [] O None) eq_refl eq_refl eq_refl)).
Defined.

Lemma execute_limit_zero_witness :
  calls (snd (execute nat nat (fun _ => Ok tt) (fun _ _ _ => Ok [1; 2; 3]%nat)
                (mkQuery "t" {[ "_id" := 0 ]} ∅ (Some 1) (Some 0))
                (mkWorld [] O None)))
  = [MongoCollection "t"; MongoFind "t" ∅ {[ "_id" := 0 ]};
     CursorSkip 1; CursorLimit 0; CursorList]
  /\ fst (execute nat nat (fun _ => Ok tt) (fun _ _ _ => Ok [1; 2; 3]%nat)
            (mkQuery "t" {[ "_id" := 0 ]} ∅ (Some 1) (Some 0))
            (mkWorld [] O None))
     = Ok [2; 3]%nat.
Proof.
  destruct (execute_limit_zero nat nat (fun _ => Ok tt)
              (fun _ _ _ => Ok [1; 2; 3]%nat)
              (mkQuery "t" {[ "_id" := 0 ]} ∅ (Some 1) (Some 0))
              (mkWorld [] O None) eq_refl eq_refl ltac:(simpl; lia))
    as (H1 & H2 & _).
  split; [exact H1|exact H2].
Defined.

(** ** The endpoints [health] and [inspect] *)

Section EndpointProperties.

Variables Doc Row : Type.
Variable mongo_ping : Res unit.
Variable list_collection_names : Res (list string).
Variable mongo_collection : string -> Res unit.
Variable mongo_docs : string -> FilterDoc -> Projection -> Res (list Doc).
Variable pg_execute : string -> Res (option (list Row)).

Local Abbreviation check := (health Row mongo_ping pg_execute).
Local Abbreviation look :=
  (inspect Doc Row list_collection_names mongo_collection mongo_docs).
Local Abbreviation loop := (inspect_loop Doc Row mongo_collection mongo_docs).

(** X14: [health] never raises and answers in one of three ways.  When
    the ping of the document store fails it answers 500 with the message
    of the error, and the relational store is not asked.  When the ping
    succeeds the relational store is sent [SELECT 1;]: a failure gives 500
    with its message, a success gives 200 and the status [ok]. *)
Theorem health_outcome :
  forall (w : World Row),
    match mongo_ping with
    | Raise e =>
        check w
        = (Ok (<[ "message" := str_exn e ]> {[ "status" := "error" ]}, 500), w)
    | Ok _ =>
        match pg_execute "SELECT 1;" with
        | Raise e =>
            check w
            = (Ok (<[ "message" := str_exn e ]> {[ "status" := "error" ]},
                   500),
               mkWorld (calls w ++ [PgExecute "SELECT 1;"])
                 (clock_reads w) (pg_rows w))
        | Ok rows =>
            check w
            = (Ok ({[ "status" := "ok" ]}, 200),
               mkWorld (calls w ++ [PgExecute "SELECT 1;"])
                 (clock_reads w) rows)
        end
    end.
Proof.
  intros w.
  unfold health, try_except_Exception, pg_cursor_execute, bind, log, lift, ret.
  simpl.
  destruct mongo_ping as [[]|e]; simpl; [|reflexivity].
  destruct (pg_execute "SELECT 1;") as [rows|e]; reflexivity.
Qed.

(** The loop of [inspect] leaves the entries of the other collections as
    they are. *)
Lemma inspect_loop_other collections :
  forall data (w w' : World Row) data' coll,
  loop collections data w = (Ok data', w') ->
  ~ In coll collections ->
  data' !! coll = data !! coll.
Proof.
  induction collections as [|c collections IH];
    intros data w w' data' coll H Hn; simpl in H.
  - inversion H; reflexivity.
  - unfold find, limit, cursor_list, bind, log, lift, ret in H. simpl in H.
    destruct (mongo_collection c) as [[]|e]; simpl in H; [|discriminate H].
    destruct (mongo_docs c ∅ {[ "_id" := 0 ]}) as [all|e];
      simpl in H; [|discriminate H].
    rewrite (IH _ _ _ _ coll H) by (intros X; apply Hn; right; exact X).
    apply lookup_insert_ne. intros ->. apply Hn. left; reflexivity.
Qed.

(** The loop of [inspect]: what it has put in [data] when it returns. *)
Lemma inspect_loop_ok collections : forall data (w w' : World Row) data',
  loop collections data w = (Ok data', w') ->
  (forall coll, In coll collections -> is_Some (data' !! coll))
  /\ (forall coll docs,
         data' !! coll = Some docs ->
         data !! coll = Some docs
         \/ (In coll collections
             /\ exists all,
                  mongo_docs coll ∅ {[ "_id" := 0 ]} = Ok all
                  /\ docs = firstn 50 all)).
Proof.
  induction collections as [|c collections IH]; intros data w w' data' H.
  - simpl in H. inversion H; subst. split; [intros coll []|].
    intros coll docs Hl. left; exact Hl.
  - simpl in H.
    unfold find, limit, cursor_list, bind, log, lift, ret in H. simpl in H.
    destruct (mongo_collection c) as [[]|e]; simpl in H; [|discriminate H].
    destruct (mongo_docs c ∅ {[ "_id" := 0 ]}) as [all|e] eqn:Hall;
      simpl in H; [|discriminate H].
    pose proof (IH _ _ _ _ H) as [H1 H2]. split.
    + intros coll [->|Hin]; [|apply H1, Hin].
      destruct (in_dec string_dec coll collections) as [Hin|Hin];
        [apply H1, Hin|].
      rewrite (inspect_loop_other _ _ _ _ _ coll H Hin).
      rewrite lookup_insert_eq. eexists; reflexivity.
    + intros coll docs Hl. destruct (H2 coll docs Hl) as [H0|(Hin & Hx)].
      * destruct (decide (c = coll)) as [->|Hne].
        -- rewrite lookup_insert_eq in H0. inversion H0; subst.
           right. split; [left; reflexivity|].
           exists all. split; [exact Hall|reflexivity].
        -- rewrite lookup_insert_ne in H0 by exact Hne. left; exact H0.
      * right. split; [right; exact Hin|exact Hx].
Qed.

(** X15: [inspect] never raises.  It answers 200 only when the listing of
    the collections and every query have succeeded; the data then has an
    entry for each listed collection and for no other name, and each
    entry is the first 50 of the records the store enumerates for that
    collection with the empty filter and [_id] suppressed, so 50 records
    at most.  In every other case it answers 500 with a message and no
    data. *)
Theorem inspect_outcome :
  forall (w : World Row),
  exists body code w',
    look w = (Ok (body, code), w')
    /\ match body with
       | InspectData collections data =>
           code = 200
           /\ list_collection_names = Ok collections
           /\ (forall coll, In coll collections <-> is_Some (data !! coll))
           /\ (forall coll docs,
                  data !! coll = Some docs ->
                  (length docs <= 50)%nat
                  /\ exists all,
                       mongo_docs coll ∅ {[ "_id" := 0 ]} = Ok all
                       /\ docs = firstn 50 all)
       | InspectError _ => code = 500
       end.
Proof.
  intros w. unfold inspect, try_except_Exception.
  unfold bind at 1. unfold lift at 1.
  destruct list_collection_names as [collections|e];
    [|do 3 eexists; split; reflexivity].
  unfold bind at 1.
  destruct (loop collections ∅ w) as [[data|e] w1] eqn:L;
    [|do 3 eexists; split; reflexivity].
  do 3 eexists. split; [reflexivity|]. simpl.
  destruct (inspect_loop_ok _ _ _ _ _ L) as [H1 H2].
  split; [reflexivity|]. split; [reflexivity|]. split.
  - intros coll. split; [apply H1|].
    intros [docs Hd]. destruct (H2 coll docs Hd) as [H0|[Hin _]];
      [rewrite lookup_empty in H0; discriminate H0|exact Hin].
  - intros coll docs Hd. destruct (H2 coll docs Hd) as [H0|[_ (all & Ha & ->)]];
      [rewrite lookup_empty in H0; discriminate H0|].
    split; [rewrite length_take; lia|].
    exists all. split; [exact Ha|reflexivity].
Qed.

End EndpointProperties.

(** ** [load_data.py]: the generated records and the batches *)

Section LoadDataProperties.

Variable Rng : Type.
Variable random_choices : list ascii -> nat -> Rng -> list ascii * Rng.
Variable random_randint : Z -> Z -> Rng -> Z * Rng.

Local Abbreviation gen_loop :=
  (generate_loop Rng random_choices random_randint).
Local Abbreviation gen := (generate_data Rng random_choices random_randint).

Lemma generate_loop_length n : forall acc g,
  length (fst (gen_loop n acc g)) = (length acc + n)%nat.
Proof.
  induction n as [|n IH]; intros acc g; simpl; [lia|].
  unfold random_name.
  destruct (random_choices ascii_lowercase 7 g) as [cs g1].
  destruct (random_randint 18 90 g1) as [age g2].
  rewrite IH, length_app. simpl. lia.
Qed.

(** X16: [generate_data(num_records)] returns exactly [num_records]
    records, and none when [num_records] is negative, whatever the random
    generator does. *)
Theorem generate_data_count :
  forall num_records g,
    length (fst (generate_data Rng random_choices random_randint
                   num_records g))
    = Z.to_nat num_records.
Proof.
  intros num_records g. unfold generate_data.
  rewrite generate_loop_length. reflexivity.
Qed.

Lemma ascii_lowercase_lower c :
  In c ascii_lowercase -> PyStr.is_lower c = true.
Proof.
  unfold ascii_lowercase. simpl.
  intros H.
  repeat (destruct H as [<-|H]; [reflexivity|]). destruct H.
Qed.

Lemma string_of_list_ascii_length cs :
  String.length (string_of_list_ascii cs) = length cs.
Proof. induction cs as [|c cs IH]; simpl; [reflexivity|]. rewrite IH. reflexivity. Qed.

Lemma generate_loop_well_formed n : forall acc g,
  (forall population k g0,
      population <> [] ->
      length (fst (random_choices population k g0)) = k
      /\ Forall (fun c => In c population)
           (fst (random_choices population k g0))) ->
  (forall a b g0, a <= b -> a <= fst (random_randint a b g0) <= b) ->
  Forall well_formed acc ->
  Forall well_formed (fst (gen_loop n acc g)).
Proof.
  induction n as [|n IH]; intros acc g Hc Hr Hacc; simpl; [exact Hacc|].
  unfold random_name.
  pose proof (Hc ascii_lowercase 7%nat g ltac:(discriminate)) as [Hlen Hpop].
  destruct (random_choices ascii_lowercase 7 g) as [cs g1]. simpl in *.
  pose proof (Hr 18 90 g1 ltac:(lia)) as Hage.
  destruct (random_randint 18 90 g1) as [age g2]. simpl in *.
  apply IH; [exact Hc|exact Hr|].
  apply Forall_app. split; [exact Hacc|].
  constructor; [|constructor].
  unfold well_formed. simpl.
  rewrite string_of_list_ascii_length, list_ascii_of_string_of_list_ascii.
  split; [exact Hlen|]. split; [|exact Hage].
  eapply Forall_impl; [exact Hpop|].
  intros c Hin. apply ascii_lowercase_lower, Hin.
Qed.

(** X17: when [random.choices] returns [k] elements of a non-empty
    population and [random.randint(a, b)] a number from [a] to [b], every
    record of [generate_data] has a name of seven lower-case ASCII letters
    and an age from 18 to 90. *)
Theorem generate_data_well_formed :
  forall num_records g,
    (forall population k g0,
        population <> [] ->
        length (fst (random_choices population k g0)) = k
        /\ Forall (fun c => In c population)
             (fst (random_choices population k g0))) ->
    (forall a b g0, a <= b -> a <= fst (random_randint a b g0) <= b) ->
    Forall well_formed (fst (gen num_records g)).
Proof.
  intros num_records g Hc Hr. unfold generate_data.
  apply generate_loop_well_formed; [exact Hc|exact Hr|constructor].
Qed.

End LoadDataProperties.

Lemma generate_data_well_formed_witness :
  Forall well_formed
    (fst (generate_data nat
            (fun population k g => (repeat (hd "a"%char population) k, g))
            (fun a b g => (a, g)) 3 O)).
Proof.
  apply (generate_data_well_formed nat
           (fun population k g => (repeat (hd "a"%char population) k, g))
           (fun a b g => (a, g)) 3 O).
  - intros population k g0 Hne. simpl. split; [apply repeat_length|].
    apply Forall_forall. intros c Hc. apply list_elem_of_In in Hc.
    apply repeat_spec in Hc. subst c.
    destruct population as [|x population]; [contradiction|].
    left; reflexivity.
  - intros a b g0 H. simpl. lia.
Defined.

Lemma firstn_plus {A : Type} (a b : nat) : forall l : list A,
  firstn (a + b) l = firstn a l ++ firstn b (skipn a l).
Proof.
  induction a as [|a IH]; intros l; simpl; [reflexivity|].
  destruct l as [|x l]; simpl.
  - destruct b; reflexivity.
  - rewrite IH. reflexivity.
Qed.

Lemma batch_loop_concat batch_size mongo_data n : forall start_index,
  concat (batch_loop batch_size mongo_data start_index n)
  = map (fun doc => (doc_name doc, doc_age doc))
      (firstn (n * batch_size) (skipn start_index mongo_data)).
Proof.
  induction n as [|n IH]; intros start_index; simpl; [reflexivity|].
  rewrite IH, firstn_plus, map_app.
  rewrite <- drop_drop. reflexivity.
Qed.

Lemma batch_loop_sizes batch_size mongo_data n : forall start_index,
  length (batch_loop batch_size mongo_data start_index n) = n
  /\ Forall (fun b => (length b <= batch_size)%nat)
       (batch_loop batch_size mongo_data start_index n)
  /\ ((start_index + n * batch_size <= length mongo_data)%nat ->
      Forall (fun b => length b = batch_size)
        (batch_loop batch_size mongo_data start_index n)).
Proof.
  induction n as [|n IH]; intros start_index; simpl.
  - split; [reflexivity|]. split; [constructor|]. intros _; constructor.
  - destruct (IH (start_index + batch_size)%nat) as (H1 & H2 & H3).
    split; [rewrite H1; reflexivity|]. split.
    + constructor; [|exact H2].
      rewrite length_map, length_take. lia.
    + intros Hlen. constructor; [|apply H3; lia].
      rewrite length_map, length_take, length_drop. lia.
Qed.

(** X18: the batch loop of the script, for any batch size: when the
    batches are enough to reach the end of the data, the lists handed to
    [executemany], one after the other, are the pairs (name, age) of all
    the records, each once and in their order; there are as many lists as
    turns, none longer than the batch size. *)
Theorem batches_cover_the_data :
  forall batch_size mongo_data n,
    (length mongo_data <= n * batch_size)%nat ->
    concat (batch_loop batch_size mongo_data O n)
    = map (fun doc => (doc_name doc, doc_age doc)) mongo_data
    /\ length (batch_loop batch_size mongo_data O n) = n
    /\ Forall (fun b => (length b <= batch_size)%nat)
         (batch_loop batch_size mongo_data O n).
Proof.
  intros batch_size mongo_data n Hlen.
  rewrite batch_loop_concat. simpl.
  rewrite firstn_all2 by exact Hlen.
  destruct (batch_loop_sizes batch_size mongo_data n O) as (H1 & H2 & _).
  repeat split; assumption.
Qed.

Lemma batches_cover_the_data_witness :
  concat (batch_loop 2 [mkUserDoc "a" 18; mkUserDoc "b" 19; mkUserDoc "c" 20]
            O 2)
  = [("a", 18); ("b", 19); ("c", 20)].
Proof.
  refine (proj1 (batches_cover_the_data 2
                   [mkUserDoc "a" 18; mkUserDoc "b" 19; mkUserDoc "c" 20]
                   2 _)).
  simpl. lia.
Defined.

Lemma total_batches_eq : total_batches = 100.
Proof. vm_compute. reflexivity. Qed.

(** X19: the script itself: with the [NUM_RECORDS] = 500000 records of
    [generate_data] and [BATCH_SIZE] = 5000, the loop runs 100 times,
    every list handed to [executemany] has exactly 5000 pairs, and
    together, in order, they are the pairs of all the records. *)
Theorem postgres_batches_of_the_script :
  forall mongo_data,
    length mongo_data = Z.to_nat NUM_RECORDS ->
    length (postgres_batches mongo_data) = 100%nat
    /\ Forall (fun b => length b = Z.to_nat BATCH_SIZE)
         (postgres_batches mongo_data)
    /\ concat (postgres_batches mongo_data)
       = map (fun doc => (doc_name doc, doc_age doc)) mongo_data.
Proof.
  intros mongo_data Hlen. unfold postgres_batches.
  rewrite total_batches_eq.
  assert (Hb : (Z.to_nat 100 * Z.to_nat BATCH_SIZE)%nat = length mongo_data)
    by (rewrite Hlen; unfold BATCH_SIZE, NUM_RECORDS; lia).
  assert (Hn : Z.to_nat 100 = 100%nat) by lia.
  revert Hb Hn.
  generalize (Z.to_nat BATCH_SIZE) as b. generalize (Z.to_nat 100) as n.
  intros n b Hb Hn.
  destruct (batch_loop_sizes b mongo_data n O) as (H1 & _ & H3).
  split; [rewrite H1; exact Hn|]. split.
  - apply H3. lia.
  - rewrite batch_loop_concat.
    change (skipn O mongo_data) with mongo_data.
    rewrite firstn_all2 by lia. reflexivity.
Qed.

Lemma postgres_batches_of_the_script_witness :
  length (postgres_batches (repeat (mkUserDoc "a" 18) (Z.to_nat NUM_RECORDS)))
  = 100%nat.
Proof.
  refine (proj1 (postgres_batches_of_the_script
                   (repeat (mkUserDoc "a" 18) (Z.to_nat NUM_RECORDS)) _)).
  apply repeat_length.
Defined.

(** ** LIMIT, OFFSET and the span of WHERE *)

Lemma last_int_from_app kw tokens l1 l2 : forall i,
  last_int_from kw tokens i (l1 ++ l2)
  = or_else (last_int_from kw tokens (i + length l1) l2)
      (last_int_from kw tokens i l1).
Proof.
  induction l1 as [|t l1 IH]; intros i; simpl.
  - rewrite Nat.add_0_r, or_else_None. reflexivity.
  - rewrite IH.
    replace (S i + length l1)%nat with (i + S (length l1))%nat by lia.
    destruct (last_int_from kw tokens (i + S (length l1)) l2); reflexivity.
Qed.

Lemma last_int_after_keyword kw pre k n_tok post n :
  is_kw kw k = true ->
  PyNum.py_int (value n_tok) = Ok n ->
  Forall (fun t => is_kw kw t = false) (n_tok :: post) ->
  last_int kw (pre ++ k :: n_tok :: post) = Some n.
Proof.
  intros Hk Hn Hpost. unfold last_int.
  rewrite last_int_from_app. simpl Nat.add.
  cbn [last_int_from].
  assert (E : last_int_from kw (pre ++ k :: n_tok :: post) (S (length pre))
                (n_tok :: post) = None)
    by (apply last_int_from_none; exact Hpost).
  simpl in E. rewrite E, Hk.
  unfold int_after_opt, int_after, list_index.
  replace (nth_error (pre ++ k :: n_tok :: post) (length pre + 1))
    with (Some n_tok).
  - simpl. rewrite Hn. reflexivity.
  - symmetry. rewrite nth_error_app2 by lia.
    replace (length pre + 1 - length pre)%nat with 1%nat by lia. reflexivity.
Qed.

(** X20: a LIMIT keyword followed by a token [int] accepts, with no LIMIT
    keyword after it, sets the limit to that integer, whatever comes
    before (an earlier LIMIT included); and the same for OFFSET. *)
Theorem last_bound_is_kept :
  forall pre k n_tok post n,
    PyNum.py_int (value n_tok) = Ok n ->
    (is_kw "LIMIT" k = true ->
     Forall (fun t => is_kw "LIMIT" t = false) (n_tok :: post) ->
     exists c,
       scan (pre ++ k :: n_tok :: post) = Ok c /\ limit_val c = Some n)
    /\ (is_kw "OFFSET" k = true ->
        Forall (fun t => is_kw "OFFSET" t = false) (n_tok :: post) ->
        exists c,
          scan (pre ++ k :: n_tok :: post) = Ok c /\ offset_val c = Some n).
Proof.
  intros pre k n_tok post n Hn. split; intros Hk Hpost;
    rewrite scan_eq; eexists; (split; [reflexivity|]); simpl;
    apply last_int_after_keyword; assumption.
Qed.

Lemma last_bound_is_kept_witness :
  exists c,
    scan (map tok ["SELECT"; "*"; "FROM"; "t"; "LIMIT"; "5"]
          ++ tok "limit" :: tok " 1_0 " :: [tok "OFFSET"; tok "x"])
    = Ok c
    /\ limit_val c = Some 10.
Proof.
  apply (proj1 (last_bound_is_kept
                  (map tok ["SELECT"; "*"; "FROM"; "t"; "LIMIT"; "5"])
                  (tok "limit") (tok " 1_0 ") [tok "OFFSET"; tok "x"] 10
                  eq_refl));
    [reflexivity|repeat constructor].
Defined.

Lemma last_index_at p pre w span :
  p w = true ->
  Forall (fun t => p t = false) span ->
  last_index p (pre ++ w :: span) = Some (length pre).
Proof.
  intros Hw Hs. unfold last_index. rewrite last_index_from_app. simpl.
  rewrite (last_index_from_none _ _ _ Hs), Hw. reflexivity.
Qed.

(** X21: the span of the WHERE clause runs to the end of the statement.
    When the translation succeeds, its filter is what
    [_parse_where_clause] makes of all the tokens after the last WHERE
    keyword: a LIMIT or OFFSET clause that follows the conditions is
    among them (and ends up in the value of the last condition), while
    the same tokens also set the bounds of the query. *)
Theorem where_span_runs_to_the_end :
  forall pre w span q,
    is_kw "WHERE" w = true ->
    Forall (fun t => is_kw "WHERE" t = false) span ->
    translate (pre ++ w :: span) = Ok q ->
    _parse_where_clause span = Ok (filter_doc q)
    /\ q_limit q = last_int "LIMIT" (pre ++ w :: span)
    /\ q_offset q = last_int "OFFSET" (pre ++ w :: span).
Proof.
  intros pre w span q Hw Hs H.
  destruct (translate_ok_fields _ _ H) as (Hf & Hl & Ho).
  split; [|split; assumption].
  unfold where_filter_of in Hf.
  rewrite (last_index_at _ pre w span Hw Hs) in Hf.
  rewrite <- Hf. f_equal.
  change (pre ++ w :: span) with (pre ++ [w] ++ span).
  rewrite app_assoc.
  replace (length pre + 1)%nat with (length (pre ++ [w]))
    by (rewrite length_app; reflexivity).
  rewrite drop_app_length. reflexivity.
Qed.

(** X21 at work: in [SELECT * FROM t WHERE age > 30 LIMIT 10] the limit
    is 10 and the value compared with [age] is the string
    [30 LIMIT 10]. *)
Lemma where_span_runs_to_the_end_witness :
  _parse_where_clause (map tok ["age"; ">"; "30"; "LIMIT"; "10"])
  = Ok (filter_doc
          (mkQuery "t" {[ "_id" := 0 ]}
             {[ "age" := FOp "$gt" (VStr "30 LIMIT 10") ]} None (Some 10))).
Proof.
  refine (proj1 (where_span_runs_to_the_end
                   (map tok ["SELECT"; "*"; "FROM"; "t"]) (tok "WHERE")
                   (map tok ["age"; ">"; "30"; "LIMIT"; "10"])
                   (mkQuery "t" {[ "_id" := 0 ]}
                      {[ "age" := FOp "$gt" (VStr "30 LIMIT 10") ]}
                      None (Some 10))
                   eq_refl _ _)).
  - repeat constructor.
  - vm_compute. reflexivity.
Defined.


(** ** A query without bounds *)

(** X22: when neither LIMIT nor OFFSET was parsed, [execute] sets no
    bound of its own: on a collection the driver accepts it makes three
    calls, the collection, [find] and the enumeration, and returns all
    the records the store enumerates for the filter and the projection,
    or the failure of the store. *)
Theorem execute_without_bounds :
  forall Doc Row mongo_collection
         (mongo_docs : string -> FilterDoc -> Projection -> Res (list Doc))
         q (w : World Row),
    q_offset q = None -> q_limit q = None ->
    mongo_collection (collection_name q) = Ok tt ->
    execute Doc Row mongo_collection mongo_docs q w
    = (mongo_docs (collection_name q) (filter_doc q) (projection q),
       mkWorld
         (calls w ++ [MongoCollection (collection_name q);
                      MongoFind (collection_name q) (filter_doc q) (projection q);
                      CursorList])
         (clock_reads w) (pg_rows w)).
Proof.
  intros Doc Row mongo_collection mongo_docs q w Ho Hl Hc.
  unfold execute, find, skip, limit, cursor_list, bind, log, lift, ret, raise.
  rewrite Ho, Hl, Hc. simpl. rewrite <- !app_assoc. simpl.
  destruct (mongo_docs _ _ _) as [docs|e]; [|reflexivity].
  unfold window. simpl. reflexivity.
Qed.

Lemma execute_without_bounds_witness :
  execute nat nat (fun _ => Ok tt) (fun _ _ _ => Ok [1; 2; 3]%nat)
    (mkQuery "t" {[ "_id" := 0 ]} ∅ None None) (mkWorld [] O None)
  = (Ok [1; 2; 3]%nat,
     mkWorld ([] ++ [MongoCollection "t"; MongoFind "t" ∅ {[ "_id" := 0 ]};
                     CursorList]) O None).
Proof.
  exact (execute_without_bounds nat nat (fun _ => Ok tt)
           (fun _ _ _ => Ok [1; 2; 3]%nat)
           (mkQuery "t" {[ "_id" := 0 ]} ∅ None None) (mkWorld [] O None)
           eq_refl eq_refl eq_refl).
Defined.
